(** * Knowledge base of the ticket bot: a Rocq model of [knowledge_base.py]

    The development follows [src/knowledge_base.py] method by method.

    - Python [str] values are [string]s; the helpers of module
      [PyStr] follow the built-in methods the code calls ([lower],
      [strip], [in], [replace], [split]).
    - Floats are modelled as exact rationals ([Q]).
    - The sentence-transformer model is a parameter [encode] of the
      development: a deterministic map from a text to its vector.
    - The FAISS flat L2 index is an exhaustive scan over the stored rows.
    - Methods of [KnowledgeBase] run in a small state-and-exception
      monad over the fields of the object. *)

From Stdlib Require Import String Ascii List ZArith QArith Qminmax Lia Lqa Bool.
Import ListNotations.
Local Open Scope string_scope.

(** ** Python string methods *)

Module PyStr.

(** Characters are the code points below 256.

    [str.isspace] there: TAB, LF, VT, FF, CR, the separators FS GS RS US,
    SPACE, NEL (133) and the no-break space (160). *)
Definition is_space (c : ascii) : bool :=
  let n := nat_of_ascii c in
  ((9 <=? n)%nat && (n <=? 13)%nat) || ((28 <=? n)%nat && (n <=? 32)%nat)
  || (n =? 133)%nat || (n =? 160)%nat.

(** [str.lower] there: A-Z, and the capital letters 192-222 of Latin-1
    (215, the multiplication sign, is no letter). *)
Definition lower_char (c : ascii) : ascii :=
  let n := nat_of_ascii c in
  if ((65 <=? n)%nat && (n <=? 90)%nat)
     || ((192 <=? n)%nat && (n <=? 222)%nat && negb (n =? 215)%nat)
  then ascii_of_nat (n + 32)
  else c.

Fixpoint lower (s : string) : string :=
  match s with
  | EmptyString => EmptyString
  | String c s' => String (lower_char c) (lower s')
  end.

Fixpoint lstrip (s : string) : string :=
  match s with
  | EmptyString => EmptyString
  | String c s' => if is_space c then lstrip s' else s
  end.

Fixpoint rstrip (s : string) : string :=
  match s with
  | EmptyString => EmptyString
  | String c s' =>
      match rstrip s' with
      | EmptyString => if is_space c then EmptyString else String c EmptyString
      | r => String c r
      end
  end.

(** [s.strip()] *)
Definition strip (s : string) : string := rstrip (lstrip s).

(** [s.startswith(p)] *)
Fixpoint startswith (p s : string) : bool :=
  match p, s with
  | EmptyString, _ => true
  | String a p', String b s' => Ascii.eqb a b && startswith p' s'
  | String _ _, EmptyString => false
  end.

(** [sub in s] *)
Fixpoint contains (sub s : string) : bool :=
  startswith sub s ||
  match s with
  | EmptyString => false
  | String _ s' => contains sub s'
  end.

(** [s.replace(old, new)] for a non-empty [old]: occurrences are found
    from the left and do not overlap.  [skip] counts the characters of a
    match that are still to be dropped. *)
Fixpoint replace_from (old new s : string) (skip : nat) : string :=
  match s with
  | EmptyString => EmptyString
  | String c s' =>
      match skip with
      | S k => replace_from old new s' k
      | O =>
          if startswith old s
          then new ++ replace_from old new s' (String.length old - 1)%nat
          else String c (replace_from old new s' 0%nat)
      end
  end.

(** [s.replace('', new)] puts [new] before every character and at the
    end. *)
Fixpoint intersperse (new s : string) : string :=
  match s with
  | EmptyString => new
  | String c s' => new ++ String c (intersperse new s')
  end.

Definition replace (old new s : string) : string :=
  match old with
  | EmptyString => intersperse new s
  | _ => replace_from old new s 0%nat
  end.

(** [s.split(sep)] for a non-empty [sep]: the result is never empty, the
    head of the result is the segment being read. *)
Fixpoint split_from (sep s : string) (skip : nat) : list string :=
  match s with
  | EmptyString => [EmptyString]
  | String c s' =>
      match skip with
      | S k => split_from sep s' k
      | O =>
          if startswith sep s
          then EmptyString :: split_from sep s' (String.length sep - 1)%nat
          else
            match split_from sep s' 0%nat with
            | seg :: rest => String c seg :: rest
            | [] => [String c EmptyString]
            end
      end
  end.

Definition split (sep s : string) : list string := split_from sep s 0%nat.

(** [s[n:]] *)
Fixpoint drop (n : nat) (s : string) : string :=
  match n, s with
  | O, _ => s
  | S n', EmptyString => EmptyString
  | S n', String _ s' => drop n' s'
  end.

(** [s.split(sep, 1)] when [sep] occurs in [s]: the text before the
    first occurrence and all the text after it. *)
Fixpoint split_first (sep s : string) : option (string * string) :=
  match s with
  | EmptyString => None
  | String c s' =>
      if startswith sep s then Some (EmptyString, drop (String.length sep) s)
      else
        match split_first sep s' with
        | Some (before, rest) => Some (String c before, rest)
        | None => None
        end
  end.

(** Truth value of a string: [if s] holds for a non-empty one. *)
Definition truthy (s : string) : bool :=
  match s with
  | EmptyString => false
  | _ => true
  end.

Definition nl : string := String (ascii_of_nat 10%nat) EmptyString.

End PyStr.

(** ** Numbers, vectors and the flat L2 index *)

(** [max(a, b)] of Python: [b] is chosen only when it is strictly
    greater than [a]. *)
Definition py_max (a b : Q) : Q := if Qle_bool b a then a else b.

(** One row of a 2-D [float32] array. *)
Definition vec := list Q.

(** Squared Euclidean distance, as [IndexFlatL2] computes it.  The rows
    of an index and the query come from one model and have its
    dimension; on lists of different lengths the sum stops with the
    shorter one. *)
Fixpoint l2sqr (x y : vec) : Q :=
  match x, y with
  | a :: x', b :: y' => (a - b) * (a - b) + l2sqr x' y'
  | _, _ => 0
  end.

(** A search result: the distance and the label (row number). *)
Definition hit := (Q * Z)%type.

(** The distance FAISS reports in a result slot it could not fill: the
    largest finite [float32].  The label of such a slot is [-1]. *)
Definition FLT_MAX : Q := inject_Z 340282346638528859811704183484516925440.

Definition no_hit : hit := (FLT_MAX, (-1)%Z).

(** Distances of the query to all rows, labelled from [start]. *)
Fixpoint scan (start : Z) (rows : list vec) (q : vec) : list hit :=
  match rows with
  | [] => []
  | r :: rows' => (l2sqr q r, start) :: scan (start + 1)%Z rows' q
  end.

Fixpoint insert_hit (h : hit) (l : list hit) : list hit :=
  match l with
  | [] => [h]
  | h' :: l' =>
      if Qle_bool (fst h) (fst h') then h :: l else h' :: insert_hit h l'
  end.

(** Ascending by distance; rows at the same distance stay in row order. *)
Definition sort_hits (l : list hit) : list hit := fold_right insert_hit [] l.

(** [index.search(q, k)] for a single query: the [k] nearest rows in
    ascending order of distance, the missing slots filled with
    [no_hit]. *)
Definition search (rows : list vec) (q : vec) (k : nat) : list hit :=
  let found := firstn k (sort_hits (scan 0%Z rows q)) in
  found ++ repeat no_hit (k - length found)%nat.

(** The head of a list of hits is at least as near as every element. *)
Definition head_least (l : list hit) : Prop :=
  forall h, In h l -> fst (hd no_hit l) <= fst h.

(** ** Exceptions and list indexing *)

Inductive exn : Type :=
| IndexError.

Inductive outcome (A : Type) : Type :=
| Return (a : A)
| Raise (e : exn).

Arguments Return {A} a.
Arguments Raise {A} e.

(** [l[i]] for an integer [i]: a negative [i] counts from the end. *)
Definition getitem {A : Type} (l : list A) (i : Z) : outcome A :=
  let j := if (i <? 0)%Z then (i + Z.of_nat (length l))%Z else i in
  if (j <? 0)%Z then Raise IndexError
  else match nth_error l (Z.to_nat j) with
       | Some a => Return a
       | None => Raise IndexError
       end.

(** ** The object and its methods *)

Record KnowledgeBase : Type := mkKB {
  questions : list string;
  answers : list string;
  question_embeddings : option (list vec);
  index : option (list vec)
}.

(** State after [__init__]. *)
Definition init : KnowledgeBase := mkKB [] [] None None.

(** A method body: it reads and writes the fields of [self] and either
    returns or raises.  Field writes made before a raise persist. *)
Definition M (A : Type) : Type := KnowledgeBase -> outcome A * KnowledgeBase.

Definition ret {A : Type} (a : A) : M A := fun kb => (Return a, kb).

Definition bind {A B : Type} (m : M A) (f : A -> M B) : M B :=
  fun kb =>
    match m kb with
    | (Return a, kb') => f a kb'
    | (Raise e, kb') => (Raise e, kb')
    end.

Definition lift {A : Type} (o : outcome A) : M A := fun kb => (o, kb).

Definition get_self : M KnowledgeBase := fun kb => (Return kb, kb).

Definition set_questions (qs : list string) : M unit :=
  fun kb => (Return tt,
             mkKB qs (answers kb) (question_embeddings kb) (index kb)).

Definition set_answers (ans : list string) : M unit :=
  fun kb => (Return tt,
             mkKB (questions kb) ans (question_embeddings kb) (index kb)).

Definition set_question_embeddings (e : option (list vec)) : M unit :=
  fun kb => (Return tt, mkKB (questions kb) (answers kb) e (index kb)).

Definition set_index (ix : option (list vec)) : M unit :=
  fun kb => (Return tt,
             mkKB (questions kb) (answers kb) (question_embeddings kb) ix).

Declare Scope kb_scope.
Delimit Scope kb_scope with kb.
Notation "x <- m ;; k" := (bind m (fun x => k))
  (at level 61, m at next level, right associativity) : kb_scope.
Notation "m ;; k" := (bind m (fun _ => k))
  (at level 61, right associativity) : kb_scope.
Local Open Scope kb_scope.

(** *** Parsing of the training file, lines 22-34 *)

(** The body of the [for section in sections[1:]] loop: the pair a
    section contributes, if any. *)
Definition parse_section (section : string) : option (string * string) :=
  if PyStr.contains "A:" section then
    let question := PyStr.strip (nth 0 (PyStr.split "A:" section) "") in
    let answer := PyStr.strip (nth 1 (PyStr.split "A:" section) "") in
    if PyStr.truthy question && PyStr.truthy answer
    then Some (question, answer)
    else None
  else None.

(** The loop of lines 26-31 over the sections, with the body as a
    parameter. *)
Fixpoint collect_pairs (body : string -> option (string * string))
         (sections : list string) : list (string * string) :=
  match sections with
  | [] => []
  | section :: rest =>
      match body section with
      | Some qa => qa :: collect_pairs body rest
      | None => collect_pairs body rest
      end
  end.

Definition parse_qa_pairs (content : string) : list (string * string) :=
  let sections := PyStr.split "Q:" content in
  collect_pairs parse_section (tl sections).

(** *** The parser as the specification words it

    Each section after the first is cut at the first "A:" into the text
    before it and all the text after it. *)
Definition parse_section_spec (section : string) : option (string * string) :=
  match PyStr.split_first "A:" section with
  | Some (before, rest) =>
      let question := PyStr.strip before in
      let answer := PyStr.strip rest in
      if PyStr.truthy question && PyStr.truthy answer
      then Some (question, answer)
      else None
  | None => None
  end.

Definition parse_qa_pairs_spec (content : string) : list (string * string) :=
  collect_pairs parse_section_spec (tl (PyStr.split "Q:" content)).

(** *** [preprocess_query], lines 108-199 *)

(** The [variations] dict; iteration follows insertion order. *)
Definition variations : list (string * string) :=
  [ ("timezone of the server", "server timezone");
    ("server timezone", "server timezone");
    ("what timezone", "server timezone");
    ("time zone", "timezone");
    ("server time", "server timezone");
    ("rules of the server", "server rules");
    ("server rules", "server rules");
    ("what are the rules", "server rules");
    ("guidelines", "server rules");
    ("how to start", "get started");
    ("getting started", "get started");
    ("new here", "get started");
    ("beginner", "get started");
    ("how to get roles", "get roles");
    ("assign roles", "get roles");
    ("role assignment", "get roles");
    ("who are mods", "moderators");
    ("admin", "moderators");
    ("staff", "moderators");
    ("report issue", "report problem");
    ("report someone", "report problem");
    ("complaint", "report problem");
    ("voice channels", "voice channels");
    ("vc", "voice channels");
    ("voice chat", "voice channels");
    ("invite friends", "invite friends");
    ("add friends", "invite friends");
    ("share server", "invite friends");
    ("music bot", "music bot");
    ("play music", "music bot");
    ("songs", "music bot");
    ("server events", "events");
    ("activities", "events");
    ("what events", "events");
    ("suggest feature", "suggest new features");
    ("ideas", "suggest new features");
    ("feedback", "suggest new features");
    ("rank up", "level up");
    ("ranking", "level up");
    ("experience", "level up");
    ("create channel", "create my own channel");
    ("new channel", "create my own channel");
    ("tech help", "technical issues");
    ("support", "technical issues");
    ("problem", "technical issues") ].

Definition filler_words : list string :=
  [ "what is"; "what are"; "how do i"; "can i"; "could you"; "please";
    "thank you"; "thanks" ].

(** One turn of the loop over [variations.items()]. *)
Definition apply_variation (query : string) (entry : string * string) : string :=
  let (variation, standard) := entry in
  if PyStr.contains variation query
  then PyStr.replace variation standard query
  else query.

(** One turn of the loop over [filler_words]. *)
Definition remove_filler (query filler : string) : string :=
  PyStr.replace filler "" query.

Definition preprocess_query (query : string) : string :=
  let query := PyStr.lower query in
  let query := fold_left apply_variation variations query in
  let query := fold_left remove_filler filler_words query in
  PyStr.strip query.

(** *** The answers of [find_best_answer] outside the corpus *)

Definition NO_INFORMATION : string :=
  "I don't have information about that topic. Please contact a server admin.".

Definition NO_GOOD_ANSWER : string :=
  "I don't have a good answer for that question. Please contact a server admin for help.".

Section WithModel.

(** [self.model.encode] on one text.  On a list of texts it gives the
    rows in the same order. *)
Variable encode : string -> vec.

(** *** [load_training_data], lines 16-44

    [file] is what [open] and [read] give: the content, or [None] when
    they raise (the [except] clauses then return [False]). *)
Definition load_training_data (file : option string) : M bool :=
  match file with
  | None => ret false
  | Some content =>
      let qa_pairs := parse_qa_pairs content in
      set_questions (map fst qa_pairs) ;;
      set_answers (map snd qa_pairs) ;;
      ret true
  end.

(** *** [build_index], lines 46-65 *)
Definition build_index : M bool :=
  self <- get_self ;;
  match questions self with
  | [] => ret false
  | _ :: _ =>
      let embeddings := map encode (questions self) in
      set_question_embeddings (Some embeddings) ;;
      set_index (Some embeddings) ;;
      ret true
  end.

(** *** [find_best_answer], lines 81-106 *)
Definition adjusted_threshold (threshold : Q) : Q :=
  py_max (threshold - (1 # 10)) (1 # 2).

Definition similarity_of (best_distance : Q) : Q := 1 / (1 + best_distance).

Definition find_best_answer (query : string) (threshold : Q) : M (string * Q) :=
  self <- get_self ;;
  match index self, questions self with
  | None, _ => ret (NO_INFORMATION, 0)
  | Some _, [] => ret (NO_INFORMATION, 0)
  | Some rows, _ :: _ =>
      let processed_query := preprocess_query query in
      let query_embedding := encode processed_query in
      let hits := search rows query_embedding 5 in
      best <- lift (getitem hits 0%Z) ;;
      let best_distance := fst best in
      let similarity := similarity_of best_distance in
      if Qle_bool (adjusted_threshold threshold) similarity
         && (snd best <? Z.of_nat (length (answers self)))%Z
      then
        answer <- lift (getitem (answers self) (snd best)) ;;
        ret (answer, similarity)
      else ret (NO_GOOD_ANSWER, similarity)
  end.

(** The result slot [find_best_answer] reads: [distances[0][0]] and
    [indices[0][0]]. *)
Definition nearest (rows : list vec) (query : string) : hit :=
  hd no_hit (search rows (encode (preprocess_query query)) 5).

(** *** [add_qa_pair], lines 201-207 *)
Definition add_qa_pair (question answer : string) : M unit :=
  self <- get_self ;;
  set_questions (questions self ++ [question]) ;;
  self <- get_self ;;
  set_answers (answers self ++ [answer]) ;;
  build_index ;;
  ret tt.

(** ** Sequences of calls on one object *)

Inductive call : Type :=
| LoadTrainingData (file : option string)
| BuildIndex
| AddQaPair (question answer : string)
| FindBestAnswer (query : string) (threshold : Q).

(** The object after a call. *)
Definition after (kb : KnowledgeBase) (c : call) : KnowledgeBase :=
  match c with
  | LoadTrainingData file => snd (load_training_data file kb)
  | BuildIndex => snd (build_index kb)
  | AddQaPair q a => snd (add_qa_pair q a kb)
  | FindBestAnswer q t => snd (find_best_answer q t kb)
  end.

Definition after_all (kb : KnowledgeBase) (cs : list call) : KnowledgeBase :=
  fold_left after cs kb.

Definition reachable (kb : KnowledgeBase) : Prop :=
  exists cs, after_all init cs = kb.

(** Number of vectors in the index, [index.ntotal]. *)
Definition ntotal (kb : KnowledgeBase) : option nat :=
  option_map (@length vec) (index kb).

(** [find_best_answer] gets as far as [index.search]. *)
Definition attempts_search (kb : KnowledgeBase) : Prop :=
  index kb <> None /\ questions kb <> [].

Definition is_find (c : call) : bool :=
  match c with
  | FindBestAnswer _ _ => true
  | _ => false
  end.

End WithModel.

(** A small embedding model for running the definitions: the length of
    the text and the code of its first character. *)
Definition toy_encode (s : string) : vec :=
  [ inject_Z (Z.of_nat (String.length s));
    match s with
    | EmptyString => 0
    | String c _ => inject_Z (Z.of_nat (nat_of_ascii c))
    end ].

(** Training files and objects for running the definitions. *)
Definition corpus_one : string :=
  "Q: ab" ++ PyStr.nl ++ "A: B." ++ PyStr.nl.

Definition corpus_two : string :=
  corpus_one ++ "Q: server timezone" ++ PyStr.nl ++ "A: UTC" ++ PyStr.nl.

(** Loaded and indexed. *)
Definition ready_calls : list call :=
  [LoadTrainingData (Some corpus_two); BuildIndex].

Definition ready_kb : KnowledgeBase :=
  Eval vm_compute in after_all toy_encode init ready_calls.

(** Loaded, indexed, then loaded again from a longer file. *)
Definition stale_calls : list call :=
  [LoadTrainingData (Some corpus_one); BuildIndex;
   LoadTrainingData (Some corpus_two)].

Definition stale_kb : KnowledgeBase :=
  Eval vm_compute in after_all toy_encode init stale_calls.

(** Loaded, indexed, then loaded from an empty file. *)
Definition emptied_calls : list call :=
  [LoadTrainingData (Some corpus_one); BuildIndex; LoadTrainingData (Some "")].

Definition emptied_kb : KnowledgeBase :=
  Eval vm_compute in after_all toy_encode init emptied_calls.

(** The block the [addqa] command of [bot.py] (line 186) appends to the
    training file after its call of [add_qa_pair]. *)
Definition addqa_block (question answer : string) : string :=
  PyStr.nl ++ "Q: " ++ question ++ PyStr.nl ++ "A: " ++ answer ++ PyStr.nl.

(** A training file whose answer mentions the marker "A:". *)
Definition two_markers : string :=
  addqa_block "Format?" "Write Q then A: then text".

(** ** The rest of [knowledge_base.py] and its callers in [bot.py] *)

(** *** [save_index] and [load_index], lines 67-79

    The index files on disk, the latest write first.  [read_index] is
    what [os.path.exists] and [faiss.read_index] give for a path:
    nothing when no index was written there. *)
Definition index_files : Type := list (string * list vec).

Fixpoint read_index (file_path : string) (disk : index_files)
  : option (list vec) :=
  match disk with
  | [] => None
  | (p, rows) :: rest =>
      if String.eqb p file_path then Some rows else read_index file_path rest
  end.



Definition load_index (file_path : string) (disk : index_files) : M bool :=
  match read_index file_path disk with
  | Some rows => set_index (Some rows) ;; ret true
  | None => ret false
  end.

(** *** [is_ticket_channel], [bot.py] lines 67-83 *)

Definition ticket_patterns : list string :=
  [ "ticket-"; "ticket_"; "ticket";
    "support-"; "support_"; "support";
    "help-"; "help_"; "help";
    "issue-"; "issue_"; "issue" ].

(** [any(pattern in text for pattern in patterns)] *)
Definition any_in (patterns : list string) (text : string) : bool :=
  existsb (fun pattern => PyStr.contains pattern text) patterns.

Definition is_ticket_channel (name : string) : bool :=
  let channel_name := PyStr.lower name in
  if PyStr.contains "ticket" channel_name then true
  else any_in ticket_patterns channel_name.

(** *** [should_respond], [bot.py] lines 120-134

    [mentioned] is the result of [self.user.mentioned_in(message)]. *)

Definition question_indicators : list string :=
  [ "?"; "how"; "what"; "when"; "where"; "why"; "who";
    "help"; "issue"; "problem"; "question"; "support" ].

Definition should_respond (mentioned : bool) (message_content : string)
  : bool :=
  let content := PyStr.lower message_content in
  if mentioned then true
  else any_in question_indicators content.

(** Questions and answers are paired by position. *)
Definition paired (kb : KnowledgeBase) : Prop :=
  length (questions kb) = length (answers kb).

(** The fields agree with one another. *)
Definition coherent (kb : KnowledgeBase) : Prop :=
  paired kb
  /\ question_embeddings kb = index kb
  /\ index kb <> Some [].

Section Callers.

Variable encode : string -> vec.

(** *** The [train] command, [bot.py] lines 168-171 (and [on_ready],
    lines 37-39): load, and build the index when the load succeeded.
    The result is [success]. *)
Definition train (file : option string) : M bool :=
  success <- load_training_data file ;;
  if success then build_index encode ;; ret true else ret false.

(** *** The [addqa] command, [bot.py] lines 183-186: the pair goes into
    the object, and its block is appended to the training file (which
    [open(..., 'a')] creates when it is missing).  The result is the
    content of the file after the call. *)
Definition addqa (question answer : string) (data_file : option string)
  : M string :=
  add_qa_pair encode question answer ;;
  ret (match data_file with
       | Some content => content
       | None => ""
       end ++ addqa_block question answer).

(** What the bot does to its knowledge base: [on_ready] and [train]
    with the training file as it is then, [addqa], and a question of a
    user. *)
Inductive command : Type :=
| Train (file : option string)
| Addqa (question answer : string)
| Ask (query : string) (threshold : Q).

Definition run_command (kb : KnowledgeBase) (c : command) : KnowledgeBase :=
  match c with
  | Train file => snd (train file kb)
  | Addqa q a => snd (addqa q a None kb)
  | Ask q t => snd (find_best_answer encode q t kb)
  end.

Definition run_commands (kb : KnowledgeBase) (cs : list command)
  : KnowledgeBase :=
  fold_left run_command cs kb.

(** The index is the one built from the present questions. *)
Definition in_sync (kb : KnowledgeBase) : Prop :=
  index kb = Some (map encode (questions kb))
  /\ question_embeddings kb = Some (map encode (questions kb)).

(** The state the bot keeps: paired, and the index up to date unless
    the corpus is empty. *)
Definition serviceable (kb : KnowledgeBase) : Prop :=
  paired kb /\ (questions kb = [] \/ in_sync kb).

End Callers.

(** The first character, if any, is no white space. *)
Definition clean_head (s : string) : bool :=
  match s with
  | EmptyString => true
  | String c _ => negb (PyStr.is_space c)
  end.



(** No capital letter: [s.lower() == s]. *)
Definition is_lower (s : string) : Prop := PyStr.lower s = s.

(** Neither empty nor with white space at an end. *)
Definition is_stripped (s : string) : Prop :=
  s <> "" /\ PyStr.strip s = s.

(** * Properties *)

(** ** Rational arithmetic of the score *)

Lemma Qsquare_nonneg (x : Q) : 0 <= x * x.
Proof.
  destruct (Qlt_le_dec x 0) as [H|H].
  - assert (E : x * x == (- x) * (- x)) by ring.
    rewrite E. apply Qmult_le_0_compat; lra.
  - apply Qmult_le_0_compat; assumption.
Qed.

Lemma l2sqr_nonneg (x y : vec) : 0 <= l2sqr x y.
Proof.
  revert y; induction x as [|a x IH]; intros [|b y]; simpl; try lra.
  specialize (IH y). pose proof (Qsquare_nonneg (a - b)). lra.
Qed.

Lemma similarity_of_range (d : Q) :
  0 <= d -> 0 < similarity_of d /\ similarity_of d <= 1.
Proof.
  intros Hd; unfold similarity_of; split.
  - apply Qlt_shift_div_l; lra.
  - apply Qle_shift_div_r; lra.
Qed.

Lemma similarity_of_FLT_MAX : similarity_of FLT_MAX < 1 # 2.
Proof. reflexivity. Qed.

Lemma py_max_Qmax (a b : Q) : py_max a b == Qmax a b.
Proof.
  unfold py_max; destruct (Qle_bool b a) eqn:E.
  - apply Qle_bool_iff in E. symmetry; apply Q.max_l; exact E.
  - assert (a <= b).
    { destruct (Qlt_le_dec a b) as [H|H]; [lra|].
      apply Qle_bool_iff in H; congruence. }
    symmetry; apply Q.max_r; assumption.
Qed.

Lemma adjusted_threshold_floor (t : Q) : 1 # 2 <= adjusted_threshold t.
Proof.
  unfold adjusted_threshold; rewrite py_max_Qmax. apply Q.le_max_r.
Qed.

Lemma adjusted_threshold_low (t : Q) :
  t <= 6 # 10 -> adjusted_threshold t == 1 # 2.
Proof.
  intros Ht; unfold adjusted_threshold; rewrite py_max_Qmax.
  apply Q.max_r; lra.
Qed.

Lemma Qle_bool_proper (a a' b : Q) :
  a == a' -> Qle_bool a b = Qle_bool a' b.
Proof.
  intros E. destruct (Qle_bool a b) eqn:H1, (Qle_bool a' b) eqn:H2; trivial.
  - apply Qle_bool_iff in H1. rewrite E in H1.
    apply Qle_bool_iff in H1; congruence.
  - apply Qle_bool_iff in H2. rewrite <- E in H2.
    apply Qle_bool_iff in H2; congruence.
Qed.

(** ** The exhaustive scan *)

Lemma scan_In (start : Z) (rows : list vec) (q : vec) (h : hit) :
  In h (scan start rows q) ->
  exists r, nth_error rows (Z.to_nat (snd h - start)) = Some r
            /\ fst h = l2sqr q r
            /\ (start <= snd h < start + Z.of_nat (length rows))%Z.
Proof.
  revert start; induction rows as [|r0 rows IH]; intros start; simpl.
  - intros [].
  - intros [<-|Hin].
    + exists r0; simpl. rewrite Z.sub_diag. repeat split; simpl; lia.
    + destruct (IH _ Hin) as (r & Hnth & Hd & Hi).
      exists r; repeat split; try assumption; try lia.
      replace (Z.to_nat (snd h - start)) with (S (Z.to_nat (snd h - (start + 1))))
        by lia.
      exact Hnth.
Qed.

Lemma scan_complete (start : Z) (rows : list vec) (q r : vec) :
  In r rows -> exists i, In (l2sqr q r, i) (scan start rows q).
Proof.
  revert start; induction rows as [|r0 rows IH]; intros start; simpl.
  - intros [].
  - intros [->|Hin].
    + exists start; now left.
    + destruct (IH (start + 1)%Z Hin) as [i Hi]. exists i; now right.
Qed.

Lemma insert_hit_In (h x : hit) (l : list hit) :
  In h (insert_hit x l) <-> h = x \/ In h l.
Proof.
  induction l as [|y l IH]; simpl.
  - intuition congruence.
  - destruct (Qle_bool (fst x) (fst y)); simpl; rewrite ?IH;
      intuition congruence.
Qed.

Lemma sort_hits_In (h : hit) (l : list hit) :
  In h (sort_hits l) <-> In h l.
Proof.
  induction l as [|x l IH]; simpl; [tauto|].
  rewrite insert_hit_In, IH. intuition congruence.
Qed.

Lemma insert_hit_head_least (x : hit) (l : list hit) :
  head_least l -> head_least (insert_hit x l).
Proof.
  unfold head_least; destruct l as [|y l]; simpl.
  - intros _ h [<-|[]]. apply Qle_refl.
  - intros Hl. destruct (Qle_bool (fst x) (fst y)) eqn:E; simpl.
    + apply Qle_bool_iff in E.
      intros h [<-|Hin]; [apply Qle_refl|].
      apply Qle_trans with (fst y); [assumption|]. now apply Hl.
    + intros h [<-|Hin]; [apply Qle_refl|].
      apply insert_hit_In in Hin as [->|Hin].
      * destruct (Qlt_le_dec (fst y) (fst x)) as [H|H]; [lra|].
        apply Qle_bool_iff in H; congruence.
      * apply Hl; now right.
Qed.

Lemma sort_hits_head_least (l : list hit) : head_least (sort_hits l).
Proof.
  induction l as [|x l IH]; simpl.
  - intros h [].
  - now apply insert_hit_head_least.
Qed.

Lemma search_head (rows : list vec) (q : vec) :
  exists rest, search rows q 5 = hd no_hit (search rows q 5) :: rest.
Proof.
  unfold search. destruct (sort_hits (scan 0 rows q)) as [|h l]; simpl.
  - eexists; reflexivity.
  - eexists; reflexivity.
Qed.

(** What the first result slot holds: the sentinel for an index without
    rows, and otherwise a row of least distance with its number. *)
Lemma search_first (rows : list vec) (q : vec) :
  let best := hd no_hit (search rows q 5) in
  (rows = [] /\ best = no_hit)
  \/ (exists r, nth_error rows (Z.to_nat (snd best)) = Some r
                /\ (0 <= snd best < Z.of_nat (length rows))%Z
                /\ fst best = l2sqr q r
                /\ forall r', In r' rows -> fst best <= l2sqr q r').
Proof.
  simpl. unfold search.
  pose proof (sort_hits_head_least (scan 0 rows q)) as Hleast.
  pose proof (fun h => proj1 (sort_hits_In h (scan 0 rows q))) as Hsub.
  pose proof (fun h => proj2 (sort_hits_In h (scan 0 rows q))) as Hsup.
  destruct (sort_hits (scan 0 rows q)) as [|h l]; simpl.
  - left; split; [|reflexivity].
    destruct rows as [|r rows]; [reflexivity|].
    destruct (Hsup (l2sqr q r, 0%Z)); simpl; now left.
  - right.
    destruct (scan_In 0 rows q h (Hsub h (or_introl eq_refl)))
      as (r & Hnth & Hd & Hi).
    rewrite Z.sub_0_r in Hnth.
    exists r; repeat split; try assumption; try lia.
    intros r' Hr'. destruct (scan_complete 0 rows q r' Hr') as [i Hi'].
    apply (Hleast (l2sqr q r', i)). now apply Hsup.
Qed.

(** ** List indexing *)

Lemma getitem_in_range {A : Type} (l : list A) (i : Z) :
  (0 <= i < Z.of_nat (length l))%Z ->
  exists a, nth_error l (Z.to_nat i) = Some a /\ getitem l i = Return a.
Proof.
  intros Hi. unfold getitem.
  destruct (Z.ltb_spec i 0); [lia|].
  destruct (Z.ltb_spec i 0); [lia|].
  destruct (nth_error l (Z.to_nat i)) as [a|] eqn:E.
  - exists a; split; reflexivity.
  - apply nth_error_None in E. lia.
Qed.

(** ** Retrieval *)

Section Retrieval.

Variable encode : string -> vec.

(** The sentinel of an index without rows never passes the bar. *)
Lemma no_hit_rejected (t : Q) :
  Qle_bool (adjusted_threshold t) (similarity_of (fst no_hit)) = false.
Proof.
  destruct (Qle_bool _ _) eqn:E; [|reflexivity].
  apply Qle_bool_iff in E.
  pose proof (adjusted_threshold_floor t).
  pose proof similarity_of_FLT_MAX. simpl in E. lra.
Qed.

Lemma nearest_nonneg (rows : list vec) (q : string) :
  0 <= fst (nearest encode rows q).
Proof.
  unfold nearest.
  destruct (search_first rows (encode (preprocess_query q)))
    as [[_ ->]|(r & _ & _ & -> & _)].
  - discriminate.
  - apply l2sqr_nonneg.
Qed.

(** The two branches after the search, lines 97-106. *)
Lemma find_best_answer_ready (kb : KnowledgeBase) (q : string) (t : Q)
      (rows : list vec) :
  index kb = Some rows ->
  questions kb <> [] ->
  let best := nearest encode rows q in
  let similarity := similarity_of (fst best) in
  (adjusted_threshold t <= similarity
   /\ (snd best < Z.of_nat (length (answers kb)))%Z ->
   (0 <= snd best)%Z
   /\ exists answer,
       nth_error (answers kb) (Z.to_nat (snd best)) = Some answer
       /\ find_best_answer encode q t kb = (Return (answer, similarity), kb))
  /\ (~ (adjusted_threshold t <= similarity
         /\ (snd best < Z.of_nat (length (answers kb)))%Z) ->
      find_best_answer encode q t kb
      = (Return (NO_GOOD_ANSWER, similarity), kb)).
Proof.
  intros Hix Hqs best similarity.
  assert (Hrun : find_best_answer encode q t kb =
    if Qle_bool (adjusted_threshold t) similarity
       && (snd best <? Z.of_nat (length (answers kb)))%Z
    then bind (lift (getitem (answers kb) (snd best)))
              (fun answer => ret (answer, similarity)) kb
    else (Return (NO_GOOD_ANSWER, similarity), kb)).
  { unfold find_best_answer, bind at 1, get_self. rewrite Hix.
    destruct (questions kb) as [|q0 qs]; [congruence|].
    subst best similarity. unfold nearest.
    destruct (search_head rows (encode (preprocess_query q))) as [rest E].
    rewrite E at 1. unfold bind at 1, lift at 1, getitem at 1. simpl.
    destruct (_ && _); reflexivity. }
  split.
  - intros [Hbar Hlt].
    assert (Hpos : (0 <= snd best)%Z).
    { subst best similarity; unfold nearest in *.
      destruct (search_first rows (encode (preprocess_query q)))
        as [[_ E]|(r & _ & Hi & _)]; [|lia].
      rewrite E in Hbar. pose proof (no_hit_rejected t) as Hrej.
      apply Qle_bool_iff in Hbar. congruence. }
    split; [exact Hpos|].
    destruct (getitem_in_range (answers kb) (snd best)) as (a & Hnth & Hget);
      [lia|].
    exists a; split; [exact Hnth|].
    rewrite Hrun.
    apply Qle_bool_iff in Hbar. apply Z.ltb_lt in Hlt.
    rewrite Hbar, Hlt. simpl. unfold bind, lift. rewrite Hget. reflexivity.
  - intros Hno. rewrite Hrun.
    destruct (Qle_bool (adjusted_threshold t) similarity) eqn:Hbar;
      [|reflexivity].
    destruct (Z.ltb_spec (snd best) (Z.of_nat (length (answers kb))));
      [|reflexivity].
    exfalso; apply Hno; split; [now apply Qle_bool_iff|assumption].
Qed.

(** In every state the call returns and leaves the object as it was. *)
Lemma find_best_answer_returns (kb : KnowledgeBase) (q : string) (t : Q) :
  exists result, find_best_answer encode q t kb = (Return result, kb).
Proof.
  destruct (index kb) as [rows|] eqn:Hix.
  - destruct (questions kb) as [|q0 qs] eqn:Hqs.
    + eexists. unfold find_best_answer, bind, get_self.
      rewrite Hix, Hqs. reflexivity.
    + assert (Hne : questions kb <> []) by congruence.
      destruct (find_best_answer_ready kb q t rows Hix Hne) as [Hyes Hno].
      set (best := nearest encode rows q) in *.
      set (similarity := similarity_of (fst best)) in *.
      destruct (Qlt_le_dec similarity (adjusted_threshold t)) as [Hlow|Hbar].
      * eexists. apply Hno. intros [H _]. lra.
      * destruct (Z_lt_le_dec (snd best) (Z.of_nat (length (answers kb))))
          as [Hlt|Hge].
        -- destruct (Hyes (conj Hbar Hlt)) as (_ & a & _ & E).
           eexists; exact E.
        -- eexists. apply Hno. intros [_ H]. lia.
  - eexists. unfold find_best_answer, bind, get_self. rewrite Hix.
    reflexivity.
Qed.

End Retrieval.

(** ** The claims about retrieval and index building *)

Section Claims.

Variable encode : string -> vec.

(** The outcome depends on the threshold only through the bar. *)
Lemma find_best_answer_bar (kb : KnowledgeBase) (q : string) (t1 t2 : Q) :
  adjusted_threshold t1 == adjusted_threshold t2 ->
  find_best_answer encode q t1 kb = find_best_answer encode q t2 kb.
Proof.
  intros E.
  cbv beta iota zeta delta [find_best_answer bind get_self lift].
  destruct (index kb) as [rows|]; [|reflexivity].
  destruct (questions kb) as [|q0 qs]; [reflexivity|].
  destruct (getitem (search rows (encode (preprocess_query q)) 5) 0%Z)
    as [best|e]; [|reflexivity].
  rewrite (Qle_bool_proper _ _ _ E). reflexivity.
Qed.

(** C1. In every state and for every query and threshold,
    [find_best_answer] returns a confidence that is 0 exactly when the
    index is absent or the questions list is empty.  With an index and a
    non-empty questions list the confidence is [1 / (1 + d)] for the
    squared distance [d >= 0] of the first search result (on a non-empty
    index: the least squared distance to a row), so it lies in (0, 1],
    whatever the threshold, hence also on the below-threshold branch. *)
Theorem find_best_answer_confidence
        (kb : KnowledgeBase) (query : string) (threshold : Q) :
  exists answer confidence,
    find_best_answer encode query threshold kb
    = (Return (answer, confidence), kb)
    /\ (confidence == 0 <-> (index kb = None \/ questions kb = []))
    /\ (forall rows,
          index kb = Some rows -> questions kb <> [] ->
          let d := fst (nearest encode rows query) in
          0 <= d
          /\ confidence = 1 / (1 + d)
          /\ 0 < confidence /\ confidence <= 1
          /\ (forall r, In r rows ->
                        d <= l2sqr (encode (preprocess_query query)) r)
          /\ (rows <> [] ->
              exists r, In r rows
                        /\ d = l2sqr (encode (preprocess_query query)) r)).
Proof.
  destruct (index kb) as [rows|] eqn:Hix.
  - destruct (questions kb) as [|q0 qs] eqn:Hqs.
    + exists NO_INFORMATION, 0. split; [|split].
      * unfold find_best_answer, bind, get_self. rewrite Hix, Hqs.
        reflexivity.
      * split; [intros _; now right|reflexivity].
      * intros rows' _ Hne; congruence.
    + assert (Hne : questions kb <> []) by congruence.
      pose proof (nearest_nonneg encode rows query) as Hd.
      destruct (similarity_of_range _ Hd) as [Hpos Hle].
      assert (Hconf : exists answer,
                 find_best_answer encode query threshold kb
                 = (Return (answer, similarity_of
                                      (fst (nearest encode rows query))), kb)).
      { destruct (find_best_answer_ready encode kb query threshold rows Hix Hne)
          as [Hyes Hno].
        set (best := nearest encode rows query) in *.
        destruct (Qlt_le_dec (similarity_of (fst best))
                             (adjusted_threshold threshold)) as [Hlow|Hbar].
        - eexists. apply Hno. intros [H _]. lra.
        - destruct (Z_lt_le_dec (snd best) (Z.of_nat (length (answers kb))))
            as [Hlt|Hge].
          + destruct (Hyes (conj Hbar Hlt)) as (_ & a & _ & E).
            exists a; exact E.
          + eexists. apply Hno. intros [_ H]. lia. }
      destruct Hconf as [answer Hrun].
      exists answer, (similarity_of (fst (nearest encode rows query))).
      split; [exact Hrun|]. split.
      * split.
        -- intros E. rewrite E in Hpos. lra.
        -- intros [H|H]; congruence.
      * intros rows' Hrows' _. injection Hrows' as <-. simpl.
        repeat split; try assumption.
        -- unfold nearest.
           destruct (search_first rows (encode (preprocess_query query)))
             as [[-> _]|(r & _ & _ & _ & Hmin)]; [intros r []|exact Hmin].
        -- intros Hrows. unfold nearest.
           destruct (search_first rows (encode (preprocess_query query)))
             as [[-> _]|(r & Hnth & _ & Hr & _)]; [congruence|].
           exists r; split; [|exact Hr]. eapply nth_error_In; exact Hnth.
  - exists NO_INFORMATION, 0. split; [|split].
    + unfold find_best_answer, bind, get_self. rewrite Hix. reflexivity.
    + split; [intros _; now left|reflexivity].
    + intros rows' Hrows'; congruence.
Qed.

(** C4. With an index and a non-empty questions list, the bar
    [find_best_answer] uses for a threshold [t] is [max(t - 1/10, 1/2)];
    it is 6/10 for [t = 7/10] and 5/10 for [t = 55/100]; the answer of
    the nearest row is returned exactly when the similarity reaches the
    bar and the row number is below [len(answers)], and the
    low-confidence answer otherwise. *)
Theorem threshold_policy
        (kb : KnowledgeBase) (query : string) (t : Q) (rows : list vec) :
  index kb = Some rows ->
  questions kb <> [] ->
  let best := nearest encode rows query in
  let similarity := similarity_of (fst best) in
  adjusted_threshold t == Qmax (t - (1 # 10)) (1 # 2)
  /\ adjusted_threshold (7 # 10) == 6 # 10
  /\ adjusted_threshold (55 # 100) == 5 # 10
  /\ (adjusted_threshold t <= similarity
      /\ (snd best < Z.of_nat (length (answers kb)))%Z ->
      (0 <= snd best)%Z
      /\ exists answer,
          nth_error (answers kb) (Z.to_nat (snd best)) = Some answer
          /\ find_best_answer encode query t kb
             = (Return (answer, similarity), kb))
  /\ (~ (adjusted_threshold t <= similarity
         /\ (snd best < Z.of_nat (length (answers kb)))%Z) ->
      find_best_answer encode query t kb
      = (Return (NO_GOOD_ANSWER, similarity), kb)).
Proof.
  intros Hix Hqs best similarity.
  split; [apply py_max_Qmax|].
  split; [reflexivity|]. split; [reflexivity|].
  exact (find_best_answer_ready encode kb query t rows Hix Hqs).
Qed.

(** C5. Without an index, or with an empty questions list,
    [find_best_answer] returns the fixed answer "I don't have information
    about that topic. Please contact a server admin." with confidence 0,
    for every query and threshold, and it does not raise. *)
Theorem find_best_answer_uninitialized
        (kb : KnowledgeBase) (query : string) (threshold : Q) :
  index kb = None \/ questions kb = [] ->
  find_best_answer encode query threshold kb
  = (Return ("I don't have information about that topic. Please contact a server admin.",
             0), kb).
Proof.
  intros H. unfold find_best_answer, bind, get_self.
  destruct (index kb) as [rows|].
  - destruct H as [H|H]; [discriminate|]. rewrite H. reflexivity.
  - reflexivity.
Qed.

(** C6. A second [build_index] right after a first one changes nothing:
    the object is the same, the call reports the same result, and
    [find_best_answer] returns the same pair for every query and
    threshold. *)
Theorem build_index_twice
        (kb : KnowledgeBase) (query : string) (threshold : Q) :
  let kb1 := snd (build_index encode kb) in
  let kb2 := snd (build_index encode kb1) in
  kb2 = kb1
  /\ fst (build_index encode kb1) = fst (build_index encode kb)
  /\ fst (find_best_answer encode query threshold kb2)
     = fst (find_best_answer encode query threshold kb1).
Proof.
  assert (H : snd (build_index encode (snd (build_index encode kb)))
              = snd (build_index encode kb)
              /\ fst (build_index encode (snd (build_index encode kb)))
                 = fst (build_index encode kb)).
  { unfold build_index, bind, get_self.
    destruct (questions kb) as [|q0 qs] eqn:Hqs; simpl.
    - rewrite Hqs. split; reflexivity.
    - rewrite Hqs. split; reflexivity. }
  destruct H as [Hstate Hres]. simpl.
  repeat split; try assumption. rewrite Hstate. reflexivity.
Qed.

(** C8. [build_index] on an empty questions list returns [False] and
    leaves questions, answers, the embedding matrix and the index as they
    were. *)
Theorem build_index_empty_corpus (kb : KnowledgeBase) :
  questions kb = [] ->
  build_index encode kb = (Return false, kb).
Proof.
  intros H. unfold build_index, bind, get_self. rewrite H. reflexivity.
Qed.

(** C9. [find_best_answer] returns a result and changes no field: the
    questions, the answers, the embedding matrix and the index after the
    call are those before it. *)
Theorem find_best_answer_read_only
        (kb : KnowledgeBase) (query : string) (threshold : Q) :
  let kb' := snd (find_best_answer encode query threshold kb) in
  (exists result,
      fst (find_best_answer encode query threshold kb) = Return result)
  /\ questions kb' = questions kb
  /\ answers kb' = answers kb
  /\ question_embeddings kb' = question_embeddings kb
  /\ index kb' = index kb.
Proof.
  destruct (find_best_answer_returns encode kb query threshold) as [r E].
  simpl. rewrite E. simpl. repeat split. exists r; reflexivity.
Qed.

(** C10. Two thresholds at or below 6/10 give the same outcome of
    [find_best_answer] in every state and for every query: the bar is
    1/2 for both. *)
Theorem low_thresholds_indistinguishable
        (kb : KnowledgeBase) (query : string) (t1 t2 : Q) :
  t1 <= 6 # 10 ->
  t2 <= 6 # 10 ->
  find_best_answer encode query t1 kb = find_best_answer encode query t2 kb.
Proof.
  intros H1 H2. apply find_best_answer_bar.
  rewrite (adjusted_threshold_low t1 H1), (adjusted_threshold_low t2 H2).
  reflexivity.
Qed.

End Claims.

(** ** Strings *)

Section Strings.

Import PyStr.

Lemma startswith_app (p s : string) : startswith p (p ++ s) = true.
Proof.
  induction p as [|c p IH]; simpl; [reflexivity|].
  rewrite Ascii.eqb_refl, IH. reflexivity.
Qed.

Lemma contains_app_l (p s : string) : contains p (p ++ s) = true.
Proof.
  destruct (p ++ s) eqn:E; simpl; rewrite <- E, startswith_app; reflexivity.
Qed.

(** After a replacement of an occurring [old], [new] occurs. *)
Lemma replace_from_contains (old new s : string) :
  contains old s = true ->
  old <> EmptyString ->
  contains new (replace_from old new s 0) = true.
Proof.
  intros Hin Hold. induction s as [|c s IH].
  - destruct old; [congruence|discriminate].
  - cbn [replace_from].
    cbn [contains] in Hin.
    destruct (startswith old (String c s)) eqn:E.
    + apply contains_app_l.
    + simpl in Hin. specialize (IH Hin).
      cbn [contains]. rewrite IH. apply orb_true_r.
Qed.

Lemma split_from_nonempty (sep s : string) (k : nat) :
  split_from sep s k <> [].
Proof.
  revert k; induction s as [|c s IH]; intros k; simpl; [discriminate|].
  destruct k as [|k]; [|apply IH].
  destruct (startswith sep (String c s)); [discriminate|].
  destruct (split_from sep s 0); discriminate.
Qed.

Lemma split_from_drop (sep s : string) (k : nat) :
  split_from sep s k = split_from sep (drop k s) 0.
Proof.
  revert k; induction s as [|c s IH]; intros [|k]; try reflexivity.
  simpl. apply IH.
Qed.

(** A split into one segment: the separator does not occur. *)
Lemma split_single (sep s seg : string) :
  split_from sep s 0 = [seg] -> seg = s /\ split_first sep s = None.
Proof.
  revert seg; induction s as [|c s IH]; intros seg; simpl.
  - intros [= <-]. split; reflexivity.
  - destruct (startswith sep (String c s)).
    + intros [= _ H]. now apply split_from_nonempty in H.
    + destruct (split_from sep s 0) as [|seg' rest] eqn:E;
        [now apply split_from_nonempty in E|].
      intros [= <- ->]. destruct (IH seg' eq_refl) as [-> ->].
      split; reflexivity.
Qed.

(** A split into two segments is the cut at the first occurrence. *)
Lemma split_pair (sep s before rest : string) :
  sep <> EmptyString ->
  split_from sep s 0 = [before; rest] ->
  split_first sep s = Some (before, rest).
Proof.
  intros Hsep. revert before; induction s as [|c s IH]; intros before; simpl.
  - discriminate.
  - destruct (startswith sep (String c s)).
    + intros [= <- H]. rewrite split_from_drop in H.
      apply split_single in H as [-> _].
      destruct sep as [|c0 sep]; [congruence|]. simpl.
      rewrite Nat.sub_0_r. reflexivity.
    + destruct (split_from sep s 0) as [|seg' rest'] eqn:E;
        [discriminate|].
      intros [= <- ->]. rewrite (IH seg' eq_refl). reflexivity.
Qed.

Lemma contains_split_first (sep s : string) :
  sep <> EmptyString ->
  contains sep s = false <-> split_first sep s = None.
Proof.
  intros Hsep. induction s as [|c s IH]; simpl.
  - destruct sep; [congruence|]. simpl. tauto.
  - destruct (startswith sep (String c s)); simpl.
    + split; discriminate.
    + rewrite IH. destruct (split_first sep s) as [[b r]|];
        split; congruence.
Qed.

(** On a section with at most one "A:" the code reads the pair as the
    specification words it. *)
Lemma parse_section_one_marker (section : string) :
  (length (split "A:" section) <= 2)%nat ->
  parse_section section = parse_section_spec section.
Proof.
  unfold parse_section, parse_section_spec, split.
  assert (Hsep : "A:" <> EmptyString) by discriminate.
  destruct (split_from "A:" section 0) as [|a [|b [|c l]]] eqn:E; simpl.
  - now apply split_from_nonempty in E.
  - intros _. apply split_single in E as [_ E]. rewrite E.
    apply (contains_split_first _ _ Hsep) in E. rewrite E. reflexivity.
  - intros _. apply (split_pair _ _ _ _ Hsep) in E. rewrite E.
    destruct (contains "A:" section) eqn:C; [reflexivity|].
    apply (contains_split_first _ _ Hsep) in C. congruence.
  - intros H; lia.
Qed.

End Strings.

(** ** The claims about parsing and normalising *)

(** C3. On a training file whose answer contains "A:" a second time,
    [load_training_data] keeps only the text between the first and the
    second "A:" as the answer, where the specification has all the text
    after the first "A:".  The file here is the block [addqa] writes for
    a pair that [add_qa_pair] stored whole. *)
Theorem load_training_data_second_marker :
  PyStr.split "Q:" two_markers
  = [PyStr.nl;
     " Format?" ++ PyStr.nl ++ "A: Write Q then A: then text" ++ PyStr.nl]
  /\ load_training_data (Some two_markers) init
     = (Return true, mkKB ["Format?"] ["Write Q then"] None None)
  /\ parse_qa_pairs two_markers = [("Format?", "Write Q then")]
  /\ parse_qa_pairs_spec two_markers
     = [("Format?", "Write Q then A: then text")]
  /\ answers (snd (add_qa_pair toy_encode "Format?"
                               "Write Q then A: then text" init))
     = ["Write Q then A: then text"].
Proof. repeat split; vm_compute; reflexivity. Qed.

(** C7. [preprocess_query] lowers the query, goes through the alias
    table in its order on the text as rewritten so far, replacing an
    entry that occurs (after which its standard phrase occurs) and
    leaving the text alone otherwise, then removes the filler words and
    strips.  On "what timezone is the server in" the result contains
    "server timezone". *)
Theorem preprocess_query_aliases :
  (forall query,
      preprocess_query query
      = PyStr.strip
          (fold_left remove_filler filler_words
             (fold_left apply_variation variations (PyStr.lower query))))
  /\ (forall variation standard query,
         variation <> "" ->
         PyStr.contains variation query = true ->
         apply_variation query (variation, standard)
         = PyStr.replace variation standard query
         /\ PyStr.contains standard
              (apply_variation query (variation, standard)) = true)
  /\ (forall variation standard query,
         PyStr.contains variation query = false ->
         apply_variation query (variation, standard) = query)
  /\ preprocess_query "what timezone is the server in"
     = "server timezonezone is the server in"
  /\ PyStr.contains "server timezone"
       (preprocess_query "what timezone is the server in") = true.
Proof.
  split; [reflexivity|]. split; [|split; [|split]].
  - intros variation standard query Hne Hin. unfold apply_variation.
    rewrite Hin. split; [reflexivity|].
    destruct variation as [|c v]; [congruence|].
    unfold PyStr.replace. apply replace_from_contains; [exact Hin|discriminate].
  - intros variation standard query Hout. unfold apply_variation.
    rewrite Hout. reflexivity.
  - vm_compute; reflexivity.
  - vm_compute; reflexivity.
Qed.

(** ** The index and the corpus *)

Section Staleness.

Variable encode : string -> vec.

Lemma after_find (kb : KnowledgeBase) (c : call) :
  is_find c = true -> after encode kb c = kb.
Proof.
  destruct c as [file| |q a|q t]; try discriminate. intros _. simpl.
  destruct (find_best_answer_returns encode kb q t) as [r E].
  rewrite E. reflexivity.
Qed.

Lemma after_all_finds (kb : KnowledgeBase) (finds : list call) :
  forallb is_find finds = true -> after_all encode kb finds = kb.
Proof.
  revert kb; induction finds as [|c finds IH]; intros kb; simpl.
  - reflexivity.
  - intros H. apply andb_prop in H as [Hc Hrest].
    unfold after_all in *. rewrite (after_find kb c Hc). now apply IH.
Qed.

Lemma build_index_fills (kb : KnowledgeBase) :
  questions kb <> [] ->
  build_index encode kb
  = (Return true,
     mkKB (questions kb) (answers kb)
          (Some (map encode (questions kb)))
          (Some (map encode (questions kb)))).
Proof.
  intros H. unfold build_index, bind, get_self.
  destruct (questions kb) as [|q0 qs] eqn:E; [congruence|].
  simpl. rewrite E. reflexivity.
Qed.

Lemma add_qa_pair_fills (kb : KnowledgeBase) (q a : string) :
  add_qa_pair encode q a kb
  = (Return tt,
     mkKB (questions kb ++ [q]) (answers kb ++ [a])
          (Some (map encode (questions kb ++ [q])))
          (Some (map encode (questions kb ++ [q])))).
Proof.
  unfold add_qa_pair, bind at 1 2 3 4, get_self, set_questions, set_answers.
  cbn [questions answers question_embeddings index].
  unfold bind. rewrite build_index_fills; cbn [questions].
  - reflexivity.
  - intros H. now apply app_eq_nil in H as [_ H].
Qed.

(** C2, amended. The code has no check that the index matches the
    corpus: [find_best_answer] searches the index it finds and never
    rebuilds it.  The number of vectors in the index (and of rows of the
    embedding matrix) equals [len(questions)] when the search is reached
    after a [build_index] on a non-empty questions list or after an
    [add_qa_pair], with nothing but [find_best_answer] calls since. *)
Theorem index_in_sync_after_build
        (kb : KnowledgeBase) (c : call) (finds : list call) :
  (c = BuildIndex /\ questions kb <> []) \/ (exists q a, c = AddQaPair q a) ->
  forallb is_find finds = true ->
  let kb' := after_all encode (after encode kb c) finds in
  attempts_search kb'
  /\ ntotal kb' = Some (length (questions kb'))
  /\ option_map (@length vec) (question_embeddings kb')
     = Some (length (questions kb'))
  /\ (forall q t, after encode kb' (FindBestAnswer q t) = kb').
Proof.
  intros Hc Hfinds. simpl. rewrite (after_all_finds _ _ Hfinds).
  assert (Hfind : forall k q t, after encode k (FindBestAnswer q t) = k)
    by (intros; now apply after_find).
  destruct Hc as [[-> Hqs]|(q & a & ->)]; simpl.
  - rewrite (build_index_fills kb Hqs). unfold attempts_search, ntotal. simpl.
    rewrite length_map. repeat split; try discriminate; try assumption.
    intros; apply (Hfind _ q t).
  - rewrite add_qa_pair_fills. unfold attempts_search, ntotal. simpl.
    rewrite length_map. repeat split; try discriminate.
    + intros H. now apply app_eq_nil in H as [_ H].
    + intros; apply (Hfind _ q0 t).
Qed.

End Staleness.

(** ** The claims at concrete objects *)

(** The parsing example of the specification. *)
Example parse_qa_pairs_example :
  parse_qa_pairs ("Q: A?" ++ PyStr.nl ++ "A: B." ++ PyStr.nl
                  ++ "Q: C?" ++ PyStr.nl ++ "A: D.")
  = [("A?", "B."); ("C?", "D.")].
Proof. vm_compute; reflexivity. Qed.

(** A section without "A:" is skipped. *)
Example parse_qa_pairs_skips :
  parse_qa_pairs ("Q: no answer here" ++ PyStr.nl ++ "Q: C?" ++ PyStr.nl
                  ++ "A: D.")
  = [("C?", "D.")].
Proof. vm_compute; reflexivity. Qed.

(** The query "ab" against [ready_kb] at threshold 7/10: the bar is
    reached and the row number is in range, the stored answer comes
    back. *)
Lemma threshold_policy_witness :
  index ready_kb = Some (map toy_encode (questions ready_kb))
  /\ questions ready_kb <> []
  /\ exists answer,
      nth_error (answers ready_kb)
                (Z.to_nat (snd (nearest toy_encode
                                        (map toy_encode (questions ready_kb))
                                        "ab")))
      = Some answer
      /\ find_best_answer toy_encode "ab" (7 # 10) ready_kb
         = (Return (answer,
                    similarity_of
                      (fst (nearest toy_encode
                                    (map toy_encode (questions ready_kb))
                                    "ab"))),
            ready_kb).
Proof.
  assert (Hix : index ready_kb = Some (map toy_encode (questions ready_kb)))
    by (vm_compute; reflexivity).
  assert (Hqs : questions ready_kb <> []) by (vm_compute; discriminate).
  split; [exact Hix|]. split; [exact Hqs|].
  destruct (threshold_policy toy_encode ready_kb "ab" (7 # 10) _ Hix Hqs)
    as (_ & _ & _ & Hyes & _).
  apply Hyes. split; vm_compute; [discriminate|reflexivity].
Defined.

(** A fresh object has no index. *)
Lemma find_best_answer_uninitialized_witness :
  (index init = None \/ questions init = [])
  /\ find_best_answer toy_encode "hello" (7 # 10) init
     = (Return ("I don't have information about that topic. Please contact a server admin.",
                0), init).
Proof.
  split; [left; reflexivity|].
  apply (find_best_answer_uninitialized toy_encode init "hello" (7 # 10)).
  left; reflexivity.
Defined.

(** An object that kept an index while its corpus became empty. *)
Lemma build_index_empty_corpus_witness :
  questions emptied_kb = []
  /\ index emptied_kb = Some [toy_encode "ab"]
  /\ build_index toy_encode emptied_kb = (Return false, emptied_kb).
Proof.
  split; [reflexivity|]. split; [vm_compute; reflexivity|].
  apply (build_index_empty_corpus toy_encode emptied_kb). reflexivity.
Defined.

(** Thresholds 3/10 and 6/10 on [ready_kb]. *)
Lemma low_thresholds_indistinguishable_witness :
  3 # 10 <= 6 # 10
  /\ 6 # 10 <= 6 # 10
  /\ find_best_answer toy_encode "abc" (3 # 10) ready_kb
     = find_best_answer toy_encode "abc" (6 # 10) ready_kb.
Proof.
  assert (H1 : 3 # 10 <= 6 # 10) by (vm_compute; discriminate).
  assert (H2 : 6 # 10 <= 6 # 10) by (vm_compute; discriminate).
  split; [exact H1|]. split; [exact H2|].
  exact (low_thresholds_indistinguishable toy_encode ready_kb "abc" _ _ H1 H2).
Defined.

(** A [build_index] on the stale object brings the index back in
    line. *)
Lemma index_in_sync_after_build_witness :
  questions stale_kb <> []
  /\ ntotal (after_all toy_encode (after toy_encode stale_kb BuildIndex)
                       [FindBestAnswer "ab" (7 # 10)])
     = Some (length (questions
                       (after_all toy_encode
                                  (after toy_encode stale_kb BuildIndex)
                                  [FindBestAnswer "ab" (7 # 10)]))).
Proof.
  assert (Hqs : questions stale_kb <> []) by (vm_compute; discriminate).
  split; [exact Hqs|].
  apply (index_in_sync_after_build toy_encode stale_kb BuildIndex
           [FindBestAnswer "ab" (7 # 10)]).
  - left. split; [reflexivity|exact Hqs].
  - reflexivity.
Defined.

(** C2 as stated fails: after a second [load_training_data] the object
    has an index of one vector and two questions; [find_best_answer]
    searches that index and leaves it as it is. *)
Lemma stale_index_is_searched :
  reachable toy_encode stale_kb
  /\ attempts_search stale_kb
  /\ ntotal stale_kb = Some 1%nat
  /\ length (questions stale_kb) = 2%nat
  /\ find_best_answer toy_encode "ab" (7 # 10) stale_kb
     = (Return ("B.", 1), stale_kb)
  /\ ntotal (after toy_encode stale_kb (FindBestAnswer "ab" (7 # 10)))
     = Some 1%nat.
Proof.
  split.
  { exists stale_calls. vm_compute; reflexivity. }
  split.
  { split; vm_compute; discriminate. }
  repeat split; vm_compute; reflexivity.
Qed.

(** * Further properties of the code *)

(** ** More on strings *)

Section MoreStrings.

Import PyStr.

Lemma lower_char_idem (c : ascii) : lower_char (lower_char c) = lower_char c.
Proof.
  destruct c as [[] [] [] [] [] [] [] []]; reflexivity.
Qed.

Lemma lower_idem (s : string) : lower (lower s) = lower s.
Proof.
  induction s as [|c s IH]; simpl; [reflexivity|].
  rewrite lower_char_idem, IH. reflexivity.
Qed.

Lemma lower_app (s t : string) : lower (s ++ t) = lower s ++ lower t.
Proof.
  induction s as [|c s IH]; simpl; [reflexivity|]. rewrite IH. reflexivity.
Qed.

Lemma lstrip_clean_head (s : string) : clean_head (lstrip s) = true.
Proof.
  induction s as [|c s IH]; simpl; [reflexivity|].
  destruct (is_space c) eqn:E; [exact IH|]. simpl. rewrite E. reflexivity.
Qed.

Lemma lstrip_fixed (s : string) : clean_head s = true -> lstrip s = s.
Proof.
  destruct s as [|c s]; simpl; [reflexivity|].
  destruct (is_space c); [discriminate|reflexivity].
Qed.

Lemma rstrip_clean_head (s : string) :
  clean_head s = true -> clean_head (rstrip s) = true.
Proof.
  destruct s as [|c s]; simpl; [reflexivity|].
  intros H. destruct (rstrip s); simpl; [|exact H].
  destruct (is_space c) eqn:E; [discriminate|]. simpl. rewrite E. reflexivity.
Qed.

Lemma rstrip_idem (s : string) : rstrip (rstrip s) = rstrip s.
Proof.
  induction s as [|c s IH]; simpl; [reflexivity|].
  destruct (rstrip s) as [|d r] eqn:E.
  - destruct (is_space c) eqn:Ec; simpl; [reflexivity|].
    rewrite Ec. reflexivity.
  - change (rstrip (String c (String d r))) with
      (match rstrip (String d r) with
       | EmptyString =>
           if is_space c then EmptyString else String c EmptyString
       | String _ _ as r0 => String c r0
       end).
    rewrite IH. reflexivity.
Qed.

Lemma strip_idem (s : string) : strip (strip s) = strip s.
Proof.
  unfold strip.
  rewrite (lstrip_fixed (rstrip (lstrip s))).
  - apply rstrip_idem.
  - apply rstrip_clean_head, lstrip_clean_head.
Qed.

(** A stripped text: [lstrip] and [rstrip] leave it alone. *)
Lemma strip_fixed (s : string) :
  strip s = s -> clean_head s = true /\ lstrip s = s /\ rstrip s = s.
Proof.
  intros E.
  assert (H : clean_head s = true).
  { rewrite <- E. unfold strip.
    apply rstrip_clean_head, lstrip_clean_head. }
  split; [exact H|]. split; [now apply lstrip_fixed|].
  unfold strip in E. rewrite (lstrip_fixed s H) in E. exact E.
Qed.




End MoreStrings.

(** ** Splitting a text that was put together *)

Section SplitAppend.

Import PyStr.



Variables a b : ascii.

Let sep : string := String a (String b EmptyString).








End SplitAppend.

(** ** Parsing what [addqa] wrote *)

Section ParseBlocks.

Import PyStr.







End ParseBlocks.

(** ** The corpus that [load_training_data] builds *)

Lemma parse_section_stripped (section q a : string) :
  parse_section section = Some (q, a) -> is_stripped q /\ is_stripped a.
Proof.
  unfold parse_section, is_stripped.
  destruct (PyStr.contains "A:" section); [|discriminate].
  set (q0 := PyStr.strip (nth 0 (PyStr.split "A:" section) "")).
  set (a0 := PyStr.strip (nth 1 (PyStr.split "A:" section) "")).
  destruct (PyStr.truthy q0) eqn:Tq; [|discriminate].
  destruct (PyStr.truthy a0) eqn:Ta; [|discriminate].
  simpl. intros [= <- <-]. subst q0 a0. repeat split.
  - intros E. rewrite E in Tq. discriminate.
  - apply strip_idem.
  - intros E. rewrite E in Ta. discriminate.
  - apply strip_idem.
Qed.

Lemma collect_pairs_stripped (sections : list string) :
  Forall (fun qa => is_stripped (fst qa) /\ is_stripped (snd qa))
         (collect_pairs parse_section sections).
Proof.
  induction sections as [|s rest IH]; simpl; [constructor|].
  destruct (parse_section s) as [[q a]|] eqn:E; [|exact IH].
  constructor; [|exact IH]. exact (parse_section_stripped s q a E).
Qed.

(** X1. Every question and every answer that [load_training_data] reads
    from a file is non-empty and has no white space at its ends, and
    there are as many answers as questions. *)
Theorem load_training_data_corpus (content : string) (kb : KnowledgeBase) :
  let kb' := snd (load_training_data (Some content) kb) in
  Forall is_stripped (questions kb')
  /\ Forall is_stripped (answers kb')
  /\ paired kb'.
Proof.
  simpl. unfold paired. simpl.
  pose proof (collect_pairs_stripped (tl (PyStr.split "Q:" content))) as H.
  unfold parse_qa_pairs.
  set (pairs := collect_pairs parse_section (tl (PyStr.split "Q:" content)))
    in *.
  repeat split.
  - apply Forall_map. eapply Forall_impl; [|exact H]. now intros qa [Hq _].
  - apply Forall_map. eapply Forall_impl; [|exact H]. now intros qa [_ Ha].
  - rewrite !length_map. reflexivity.
Qed.


(** ** What every sequence of calls keeps *)

Section Invariants.

Variable encode : string -> vec.

Lemma load_training_data_fills (content : string) (kb : KnowledgeBase) :
  load_training_data (Some content) kb
  = (Return true,
     mkKB (map fst (parse_qa_pairs content)) (map snd (parse_qa_pairs content))
          (question_embeddings kb) (index kb)).
Proof. reflexivity. Qed.

Lemma after_coherent (kb : KnowledgeBase) (c : call) :
  coherent kb -> coherent (after encode kb c).
Proof.
  intros (Hp & He & Hi). destruct c as [[content|]| |q a|q t].
  - simpl. unfold coherent, paired. simpl. rewrite !length_map.
    repeat split; assumption.
  - simpl. repeat split; assumption.
  - simpl. unfold build_index, bind, get_self.
    destruct (questions kb) as [|q0 qs] eqn:E; simpl.
    + repeat split; assumption.
    + unfold coherent, paired in *. simpl.
      repeat split; [exact Hp|discriminate].
  - simpl. rewrite add_qa_pair_fills. unfold coherent, paired in *. simpl.
    rewrite !length_app, Hp. repeat split.
    destruct (questions kb); discriminate.
  - rewrite (after_find encode kb (FindBestAnswer q t) eq_refl).
    repeat split; assumption.
Qed.

Lemma after_all_coherent (cs : list call) (kb : KnowledgeBase) :
  coherent kb -> coherent (after_all encode kb cs).
Proof.
  revert kb; induction cs as [|c cs IH]; intros kb H; [exact H|].
  simpl. apply IH. now apply after_coherent.
Qed.

(** X2. Whatever sequence of [load_training_data], [build_index],
    [add_qa_pair] and [find_best_answer] calls a fresh object has seen,
    it has as many answers as questions, its embedding matrix is the
    content of its index, and an index, when there is one, holds at
    least one vector. *)
Theorem reachable_coherent (kb : KnowledgeBase) :
  reachable encode kb ->
  length (questions kb) = length (answers kb)
  /\ question_embeddings kb = index kb
  /\ index kb <> Some [].
Proof.
  intros [cs <-]. apply after_all_coherent.
  repeat split; discriminate.
Qed.

Lemma build_index_empty_state (kb : KnowledgeBase) :
  questions kb = [] -> snd (build_index encode kb) = kb.
Proof.
  intros H. unfold build_index, bind, get_self. rewrite H. reflexivity.
Qed.

Lemma train_fills (content : string) (kb : KnowledgeBase) :
  train encode (Some content) kb
  = (Return true,
     snd (build_index encode (snd (load_training_data (Some content) kb)))).
Proof.
  unfold train, bind at 1. rewrite load_training_data_fills.
  unfold bind.
  destruct (build_index encode _) as [[r|e] kb'] eqn:E; [reflexivity|].
  exfalso. revert E. unfold build_index, bind, get_self. simpl.
  destruct (map fst (parse_qa_pairs content)); discriminate.
Qed.

Lemma run_command_serviceable (kb : KnowledgeBase) (c : command) :
  serviceable encode kb -> serviceable encode (run_command encode kb c).
Proof.
  unfold serviceable. intros [Hp Hs]. destruct c as [[content|]|q a|q t].
  - simpl. rewrite train_fills. cbn [snd].
    rewrite load_training_data_fills. cbn [snd].
    destruct (parse_qa_pairs content) as [|[q0 a0] pairs].
    + rewrite build_index_empty_state by reflexivity. split.
      * reflexivity.
      * left. reflexivity.
    + rewrite build_index_fills by discriminate.
      cbn [snd]. split.
      * unfold paired. simpl. rewrite !length_map. reflexivity.
      * right. split; reflexivity.
  - simpl. split; assumption.
  - simpl. unfold addqa, bind. rewrite add_qa_pair_fills. cbn [snd]. split.
    + unfold paired in *. simpl. rewrite !length_app, Hp. reflexivity.
    + right. split; reflexivity.
  - destruct (find_best_answer_returns encode kb q t) as [r E].
    simpl. rewrite E. split; assumption.
Qed.

(** X3. However the bot uses its knowledge base ([on_ready] and [train]
    with any training file, [addqa], questions of users), the corpus is
    paired and, unless the corpus is empty, the index is the one built
    from the present questions: every search of [find_best_answer] then
    runs on an index with one vector per question. *)
Theorem bot_index_in_sync (cs : list command) :
  let kb := run_commands encode init cs in
  length (questions kb) = length (answers kb)
  /\ (questions kb = [] \/ in_sync encode kb)
  /\ (attempts_search kb -> ntotal kb = Some (length (questions kb))).
Proof.
  assert (H : forall kb0, serviceable encode kb0 ->
                          serviceable encode (run_commands encode kb0 cs)).
  { induction cs as [|c cs' IH]; intros kb0 H0; [exact H0|].
    simpl. apply IH. now apply run_command_serviceable. }
  destruct (H init) as [Hp Hs].
  { split; [reflexivity|now left]. }
  simpl. split; [exact Hp|]. split; [exact Hs|].
  intros [_ Hne]. destruct Hs as [Hs|[Hs _]]; [congruence|].
  unfold ntotal. rewrite Hs. simpl. rewrite length_map. reflexivity.
Qed.

End Invariants.

(** ** Retrieval on an index that matches the corpus *)

Section Matching.

Variable encode : string -> vec.

Lemma l2sqr_same (x : vec) : l2sqr x x == 0.
Proof.
  induction x as [|a x IH]; simpl; [reflexivity|]. rewrite IH. ring.
Qed.

Lemma adjusted_threshold_mono (t' t : Q) :
  t' <= t -> adjusted_threshold t' <= adjusted_threshold t.
Proof.
  intros H. unfold adjusted_threshold. rewrite !py_max_Qmax.
  apply Q.max_lub.
  - apply Qle_trans with (t - (1 # 10)); [lra|apply Q.le_max_l].
  - apply Q.le_max_r.
Qed.

(** The first result slot on an index built from the questions: a
    question of least distance to the query, with its position. *)
Lemma nearest_in_sync (kb : KnowledgeBase) (query : string) :
  paired kb ->
  questions kb <> [] ->
  let qv := encode (preprocess_query query) in
  exists i question answer,
    nearest encode (map encode (questions kb)) query
    = (l2sqr qv (encode question), Z.of_nat i)
    /\ nth_error (questions kb) i = Some question
    /\ nth_error (answers kb) i = Some answer
    /\ forall q', In q' (questions kb) ->
                  l2sqr qv (encode question) <= l2sqr qv (encode q').
Proof.
  intros Hp Hne qv. unfold nearest. fold qv.
  destruct (search_first (map encode (questions kb)) qv)
    as [[E _]|(r & Hnth & Hi & Hd & Hmin)].
  - destruct (questions kb); [congruence|discriminate].
  - set (best := hd no_hit (search (map encode (questions kb)) qv 5)) in *.
    rewrite length_map in Hi.
    rewrite nth_error_map in Hnth.
    destruct (nth_error (questions kb) (Z.to_nat (snd best)))
      as [question|] eqn:Eq; [|discriminate].
    injection Hnth as <-.
    destruct (nth_error (answers kb) (Z.to_nat (snd best)))
      as [answer|] eqn:Ea.
    + exists (Z.to_nat (snd best)), question, answer.
      repeat split; try assumption.
      * rewrite <- Hd, Z2Nat.id by lia. now destruct best.
      * intros q' Hq'. rewrite <- Hd. apply Hmin. now apply in_map.
    + apply nth_error_None in Ea. unfold paired in Hp. lia.
Qed.

(** The outcome of [find_best_answer] on such an object. *)
Lemma find_best_answer_in_sync (kb : KnowledgeBase) (query : string) (t : Q) :
  in_sync encode kb ->
  paired kb ->
  questions kb <> [] ->
  let qv := encode (preprocess_query query) in
  exists i question answer,
    nth_error (questions kb) i = Some question
    /\ nth_error (answers kb) i = Some answer
    /\ (forall q', In q' (questions kb) ->
                   l2sqr qv (encode question) <= l2sqr qv (encode q'))
    /\ find_best_answer encode query t kb
       = (Return
            (if Qle_bool (adjusted_threshold t)
                         (similarity_of (l2sqr qv (encode question)))
             then (answer, similarity_of (l2sqr qv (encode question)))
             else (NO_GOOD_ANSWER,
                   similarity_of (l2sqr qv (encode question)))),
          kb).
Proof.
  intros [Hix _] Hp Hne qv.
  destruct (nearest_in_sync kb query Hp Hne)
    as (i & question & answer & Hbest & Hq & Ha & Hmin).
  exists i, question, answer. repeat split; try assumption.
  destruct (find_best_answer_ready encode kb query t _ Hix Hne)
    as [Hyes Hno].
  rewrite Hbest in Hyes, Hno. cbn [fst snd] in Hyes, Hno. fold qv in Hyes, Hno.
  assert (Hlt : (Z.of_nat i < Z.of_nat (length (answers kb)))%Z).
  { apply Nat2Z.inj_lt. apply nth_error_Some. congruence. }
  destruct (Qle_bool _ _) eqn:Hbar.
  - apply Qle_bool_iff in Hbar.
    destruct (Hyes (conj Hbar Hlt)) as (_ & a' & Ha' & E).
    rewrite Nat2Z.id in Ha'. congruence.
  - apply Hno. intros [H _]. apply Qle_bool_iff in H. congruence.
Qed.

(** X4. When the index is the one built from the questions and the
    corpus is paired and non-empty, [find_best_answer] decides by the
    bar alone: it takes a question nearest to the processed query and
    returns its answer when the similarity reaches the bar, and the
    low-confidence answer otherwise, in both cases with the similarity
    of that question. *)
Theorem find_best_answer_nearest_question
        (kb : KnowledgeBase) (query : string) (t : Q) :
  in_sync encode kb ->
  length (questions kb) = length (answers kb) ->
  questions kb <> [] ->
  exists i question answer,
    nth_error (questions kb) i = Some question
    /\ nth_error (answers kb) i = Some answer
    /\ (forall q', In q' (questions kb) ->
                   l2sqr (encode (preprocess_query query)) (encode question)
                   <= l2sqr (encode (preprocess_query query)) (encode q'))
    /\ (adjusted_threshold t
        <= similarity_of
             (l2sqr (encode (preprocess_query query)) (encode question)) ->
        find_best_answer encode query t kb
        = (Return (answer,
                   similarity_of (l2sqr (encode (preprocess_query query))
                                        (encode question))), kb))
    /\ (similarity_of
          (l2sqr (encode (preprocess_query query)) (encode question))
        < adjusted_threshold t ->
        find_best_answer encode query t kb
        = (Return (NO_GOOD_ANSWER,
                   similarity_of (l2sqr (encode (preprocess_query query))
                                        (encode question))), kb)).
Proof.
  intros Hs Hp Hne.
  destruct (find_best_answer_in_sync kb query t Hs Hp Hne)
    as (i & question & answer & Hq & Ha & Hmin & E).
  exists i, question, answer. repeat split; try assumption.
  - intros Hbar. apply Qle_bool_iff in Hbar. rewrite Hbar in E. exact E.
  - intros Hlow. destruct (Qle_bool _ _) eqn:Hbar; [|exact E].
    apply Qle_bool_iff in Hbar. lra.
Qed.

(** X5. On such an object, a query whose processed text has the
    embedding of a stored question gets, at any threshold up to 11/10,
    the answer of a stored question at distance 0, with confidence 1. *)
Theorem find_best_answer_exact_match
        (kb : KnowledgeBase) (query question : string) (t : Q) :
  in_sync encode kb ->
  length (questions kb) = length (answers kb) ->
  In question (questions kb) ->
  encode question = encode (preprocess_query query) ->
  t <= 11 # 10 ->
  exists i stored answer confidence,
    nth_error (questions kb) i = Some stored
    /\ nth_error (answers kb) i = Some answer
    /\ l2sqr (encode (preprocess_query query)) (encode stored) == 0
    /\ confidence == 1
    /\ find_best_answer encode query t kb = (Return (answer, confidence), kb).
Proof.
  intros Hs Hp Hin Henc Ht.
  assert (Hne : questions kb <> []) by (destruct (questions kb); [destruct Hin|discriminate]).
  destruct (find_best_answer_in_sync kb query t Hs Hp Hne)
    as (i & stored & answer & Hq & Ha & Hmin & E).
  set (d := l2sqr (encode (preprocess_query query)) (encode stored)) in *.
  assert (Hd : d == 0).
  { apply Qle_antisym; [|apply l2sqr_nonneg].
    specialize (Hmin question Hin). rewrite Henc in Hmin.
    rewrite l2sqr_same in Hmin. exact Hmin. }
  assert (Hsim : similarity_of d == 1).
  { unfold similarity_of. rewrite Hd. reflexivity. }
  exists i, stored, answer, (similarity_of d).
  repeat split; try assumption.
  rewrite E.
  assert (Hbar : Qle_bool (adjusted_threshold t) (similarity_of d) = true).
  { apply Qle_bool_iff. rewrite Hsim.
    unfold adjusted_threshold. rewrite py_max_Qmax.
    apply Q.max_lub; lra. }
  rewrite Hbar. reflexivity.
Qed.

End Matching.

(** ** Reloading what was added *)

Section Reload.

Variable encode : string -> vec.



End Reload.

(** ** The threshold and the query *)

Section Thresholds.

Variable encode : string -> vec.

(** The outcome after a search, as one expression. *)
Lemma find_best_answer_shape
      (kb : KnowledgeBase) (query : string) (t : Q) (rows : list vec) :
  index kb = Some rows ->
  questions kb <> [] ->
  let best := nearest encode rows query in
  let similarity := similarity_of (fst best) in
  find_best_answer encode query t kb
  = (Return
       (if Qle_bool (adjusted_threshold t) similarity
           && (snd best <? Z.of_nat (length (answers kb)))%Z
        then (nth (Z.to_nat (snd best)) (answers kb) "", similarity)
        else (NO_GOOD_ANSWER, similarity)), kb)
  /\ (Qle_bool (adjusted_threshold t) similarity
      && (snd best <? Z.of_nat (length (answers kb)))%Z = true ->
      In (nth (Z.to_nat (snd best)) (answers kb) "") (answers kb)).
Proof.
  intros Hix Hne best similarity.
  destruct (find_best_answer_ready encode kb query t rows Hix Hne)
    as [Hyes Hno].
  fold best in Hyes, Hno. fold similarity in Hyes, Hno.
  destruct (Qle_bool (adjusted_threshold t) similarity) eqn:Hbar; simpl.
  - apply Qle_bool_iff in Hbar.
    destruct (Z.ltb_spec (snd best) (Z.of_nat (length (answers kb))))
      as [Hlt|Hge].
    + destruct (Hyes (conj Hbar Hlt)) as (_ & answer & Hnth & E).
      rewrite (nth_error_nth _ _ "" Hnth). split; [exact E|].
      intros _. eapply nth_error_In; exact Hnth.
    + split; [|discriminate]. apply Hno. intros [_ H]. lia.
  - split; [|discriminate]. apply Hno. intros [H _].
    apply Qle_bool_iff in H. congruence.
Qed.

Lemma find_best_answer_fallback
      (kb : KnowledgeBase) (query : string) (t : Q) :
  index kb = None \/ questions kb = [] ->
  find_best_answer encode query t kb = (Return (NO_INFORMATION, 0), kb).
Proof.
  intros H. unfold find_best_answer, bind, get_self.
  destruct (index kb) as [rows|]; [|reflexivity].
  destruct H as [H|H]; [discriminate|]. rewrite H. reflexivity.
Qed.

Lemma ready_or_not (kb : KnowledgeBase) :
  (index kb = None \/ questions kb = [])
  \/ (exists rows, index kb = Some rows /\ questions kb <> []).
Proof.
  destruct (index kb) as [rows|]; [|left; now left].
  destruct (questions kb) as [|q0 qs]; [left; now right|].
  right. exists rows. split; [reflexivity|discriminate].
Qed.

(** X8. The threshold works one way.  With [t' <= t]: an outcome whose
    confidence reached the bar of [t] is also the outcome at [t'], and an
    outcome whose confidence stayed below the bar of [t'] is also the
    outcome at [t]. *)
Theorem threshold_monotone
        (kb : KnowledgeBase) (query : string) (t' t : Q) :
  t' <= t ->
  (forall answer confidence,
      find_best_answer encode query t kb = (Return (answer, confidence), kb) ->
      adjusted_threshold t <= confidence ->
      find_best_answer encode query t' kb
      = (Return (answer, confidence), kb))
  /\ (forall answer confidence,
         find_best_answer encode query t' kb
         = (Return (answer, confidence), kb) ->
         confidence < adjusted_threshold t' ->
         find_best_answer encode query t kb
         = (Return (answer, confidence), kb)).
Proof.
  intros Ht. pose proof (adjusted_threshold_mono t' t Ht) as Hmono.
  destruct (ready_or_not kb) as [Hun|(rows & Hix & Hne)].
  - rewrite !(find_best_answer_fallback kb query _ Hun). split; auto.
  - destruct (find_best_answer_shape kb query t rows Hix Hne) as [E _].
    destruct (find_best_answer_shape kb query t' rows Hix Hne) as [E' _].
    set (best := nearest encode rows query) in *.
    set (similarity := similarity_of (fst best)) in *.
    rewrite E, E'. clear E E'. split; intros answer confidence Hres Hbar.
    + assert (Hc : confidence = similarity)
        by (destruct (_ && _) in Hres; congruence).
      subst confidence.
      assert (H1 : Qle_bool (adjusted_threshold t) similarity = true)
        by now apply Qle_bool_iff.
      assert (H2 : Qle_bool (adjusted_threshold t') similarity = true)
        by (apply Qle_bool_iff; lra).
      rewrite H1 in Hres. rewrite H2. exact Hres.
    + assert (Hc : confidence = similarity)
        by (destruct (_ && _) in Hres; congruence).
      subst confidence.
      assert (H1 : Qle_bool (adjusted_threshold t') similarity = false).
      { destruct (Qle_bool (adjusted_threshold t') similarity) eqn:H;
          [|reflexivity].
        apply Qle_bool_iff in H. lra. }
      assert (H2 : Qle_bool (adjusted_threshold t) similarity = false).
      { destruct (Qle_bool (adjusted_threshold t) similarity) eqn:H;
          [|reflexivity].
        apply Qle_bool_iff in H. lra. }
      rewrite H1 in Hres. rewrite H2. exact Hres.
Qed.

(** X9. An answer of [find_best_answer] is never made up: it is one of
    the stored answers or one of the two fixed texts. *)
Theorem find_best_answer_verbatim
        (kb : KnowledgeBase) (query : string) (t : Q) :
  exists answer confidence,
    find_best_answer encode query t kb = (Return (answer, confidence), kb)
    /\ (In answer (answers kb)
        \/ answer
           = "I don't have information about that topic. Please contact a server admin."
        \/ answer
           = "I don't have a good answer for that question. Please contact a server admin for help.").
Proof.
  destruct (ready_or_not kb) as [Hun|(rows & Hix & Hne)].
  - exists NO_INFORMATION, 0. split.
    + now apply find_best_answer_fallback.
    + right; left; reflexivity.
  - destruct (find_best_answer_shape kb query t rows Hix Hne) as [E Hin].
    destruct (_ && _) eqn:Hc in E, Hin.
    + eexists _, _. split; [exact E|]. left. now apply Hin.
    + eexists _, _. split; [exact E|]. right; right; reflexivity.
Qed.

(** X10. The confidence does not depend on the threshold: two calls on
    the same object with the same query return the same confidence. *)
Theorem confidence_ignores_threshold
        (kb : KnowledgeBase) (query : string) (t1 t2 : Q) :
  exists answer1 answer2 confidence,
    find_best_answer encode query t1 kb
    = (Return (answer1, confidence), kb)
    /\ find_best_answer encode query t2 kb
       = (Return (answer2, confidence), kb).
Proof.
  destruct (ready_or_not kb) as [Hun|(rows & Hix & Hne)].
  - exists NO_INFORMATION, NO_INFORMATION, 0.
    split; now apply find_best_answer_fallback.
  - destruct (find_best_answer_shape kb query t1 rows Hix Hne) as [E1 _].
    destruct (find_best_answer_shape kb query t2 rows Hix Hne) as [E2 _].
    rewrite E1, E2.
    destruct (_ && _), (_ && _); eexists _, _, _; split; reflexivity.
Qed.

(** X11. Capital letters in a query do not matter: two queries with the
    same lower-case form are processed to the same text and get the same
    outcome. *)
Theorem find_best_answer_ignores_case
        (kb : KnowledgeBase) (query1 query2 : string) (t : Q) :
  PyStr.lower query1 = PyStr.lower query2 ->
  preprocess_query query1 = preprocess_query query2
  /\ find_best_answer encode query1 t kb = find_best_answer encode query2 t kb.
Proof.
  intros H.
  assert (E : preprocess_query query1 = preprocess_query query2).
  { unfold preprocess_query. rewrite H. reflexivity. }
  split; [exact E|]. unfold find_best_answer. rewrite E. reflexivity.
Qed.

End Thresholds.

(** ** The processed query *)

Section Normal.

Import PyStr.

Lemma is_lower_cons (c : ascii) (s : string) :
  lower (String c s) = String c s -> lower_char c = c /\ lower s = s.
Proof. simpl. intros [= H1 H2]. split; assumption. Qed.

Lemma lower_replace_from (old new s : string) (k : nat) :
  lower new = new -> lower s = s ->
  lower (replace_from old new s k) = replace_from old new s k.
Proof.
  intros Hn. revert k. induction s as [|c s IH]; intros k Hs; [reflexivity|].
  apply is_lower_cons in Hs as [Hc Hs]. cbn [replace_from].
  destruct k as [|k]; [|now apply IH].
  destruct (startswith old (String c s)).
  - rewrite lower_app, Hn, IH by exact Hs. reflexivity.
  - simpl. rewrite Hc, IH by exact Hs. reflexivity.
Qed.

Lemma lower_intersperse (new s : string) :
  lower new = new -> lower s = s ->
  lower (intersperse new s) = intersperse new s.
Proof.
  intros Hn. induction s as [|c s IH]; intros Hs; [exact Hn|].
  apply is_lower_cons in Hs as [Hc Hs]. simpl.
  rewrite lower_app, Hn. simpl. rewrite Hc, IH by exact Hs. reflexivity.
Qed.

Lemma lower_replace (old new s : string) :
  lower new = new -> lower s = s ->
  lower (replace old new s) = replace old new s.
Proof.
  intros Hn Hs. unfold replace. destruct old.
  - now apply lower_intersperse.
  - now apply lower_replace_from.
Qed.

Lemma lower_lstrip (s : string) : lower s = s -> lower (lstrip s) = lstrip s.
Proof.
  induction s as [|c s IH]; intros Hs; [reflexivity|]. simpl.
  destruct (is_space c); [|exact Hs].
  apply is_lower_cons in Hs as [_ Hs]. now apply IH.
Qed.

Lemma lower_rstrip (s : string) : lower s = s -> lower (rstrip s) = rstrip s.
Proof.
  induction s as [|c s IH]; intros Hs; [reflexivity|].
  apply is_lower_cons in Hs as [Hc Hs]. specialize (IH Hs). simpl.
  destruct (rstrip s) as [|d r].
  - destruct (is_space c); [reflexivity|]. simpl. rewrite Hc. reflexivity.
  - change (lower (String c (String d r)))
      with (String (lower_char c) (lower (String d r))).
    rewrite Hc, IH. reflexivity.
Qed.

Lemma variations_lower :
  Forall (fun entry => lower (snd entry) = snd entry) variations.
Proof.
  apply Forall_forall. intros entry Hin.
  assert (H : forallb (fun e => String.eqb (lower (snd e)) (snd e)) variations
              = true) by (vm_compute; reflexivity).
  rewrite forallb_forall in H. apply String.eqb_eq. now apply H.
Qed.

Lemma lower_variations (table : list (string * string)) (s : string) :
  Forall (fun entry => lower (snd entry) = snd entry) table ->
  lower s = s ->
  lower (fold_left apply_variation table s) = fold_left apply_variation table s.
Proof.
  intros Ht. revert s. induction Ht as [|[v st] table Hst _ IH]; intros s Hs.
  - exact Hs.
  - simpl. apply IH. destruct (contains v s); [|exact Hs].
    now apply lower_replace.
Qed.

Lemma lower_fillers (fillers : list string) (s : string) :
  lower s = s ->
  lower (fold_left remove_filler fillers s) = fold_left remove_filler fillers s.
Proof.
  revert s. induction fillers as [|f fillers IH]; intros s Hs; [exact Hs|].
  simpl. apply IH. unfold remove_filler. now apply lower_replace.
Qed.

(** X12. The text [preprocess_query] returns has no capital letter and
    no white space at its ends. *)
Theorem preprocess_query_normal (query : string) :
  lower (preprocess_query query) = preprocess_query query
  /\ strip (preprocess_query query) = preprocess_query query.
Proof.
  unfold preprocess_query. split; [|apply strip_idem].
  unfold strip. apply lower_rstrip, lower_lstrip, lower_fillers.
  apply lower_variations; [exact variations_lower|apply lower_idem].
Qed.

(** *** A blank query *)

Lemma strip_blank (s : string) : strip s = EmptyString -> lstrip s = EmptyString.
Proof.
  unfold strip. pose proof (lstrip_clean_head s) as H.
  destruct (lstrip s) as [|c r]; [reflexivity|].
  simpl in *. destruct (rstrip r); [|discriminate].
  destruct (is_space c); discriminate.
Qed.

Lemma is_space_lower (c : ascii) : is_space c = true -> lower_char c = c.
Proof.
  destruct c as [[] [] [] [] [] [] [] []]; (reflexivity || discriminate).
Qed.

Lemma blank_lower (s : string) : lstrip s = EmptyString -> lower s = s.
Proof.
  induction s as [|c s IH]; [reflexivity|]. simpl.
  destruct (is_space c) eqn:E; [|discriminate].
  intros H. rewrite (is_space_lower c E), (IH H). reflexivity.
Qed.

Lemma blank_contains (p s : string) :
  p <> EmptyString -> clean_head p = true ->
  lstrip s = EmptyString -> contains p s = false.
Proof.
  intros Hp Hc. destruct p as [|p0 p]; [congruence|]. simpl in Hc.
  induction s as [|c s IH]; [reflexivity|]. simpl.
  destruct (is_space c) eqn:E; [|discriminate].
  intros H. rewrite (IH H).
  destruct (Ascii.eqb_spec p0 c) as [->|_]; [|reflexivity].
  rewrite E in Hc. discriminate.
Qed.

Lemma replace_from_absent (old new s : string) :
  contains old s = false -> replace_from old new s 0 = s.
Proof.
  induction s as [|c s IH]; [reflexivity|].
  cbn [contains replace_from]. intros H.
  apply orb_false_iff in H as [Hs Hc]. rewrite Hs, (IH Hc). reflexivity.
Qed.

Lemma keys_clean :
  Forall (fun key => key <> EmptyString /\ clean_head key = true)
         (map fst variations ++ filler_words)%list.
Proof.
  apply Forall_forall. intros key Hin.
  assert (H : forallb (fun k => negb (String.eqb k EmptyString) && clean_head k)
                      (map fst variations ++ filler_words)%list = true)
    by (vm_compute; reflexivity).
  rewrite forallb_forall in H. specialize (H key Hin).
  apply andb_prop in H as [H1 H2]. split; [|exact H2].
  intros ->. discriminate.
Qed.

(** X13. A query that is empty or holds white space only is processed to
    the empty text. *)
Theorem preprocess_query_blank (query : string) :
  strip query = "" -> preprocess_query query = "".
Proof.
  intros Hs. pose proof (strip_blank query Hs) as Hb.
  unfold preprocess_query. rewrite (blank_lower query Hb).
  pose proof keys_clean as Hk. apply Forall_app in Hk as [Hv Hf].
  assert (Ev : fold_left apply_variation variations query = query).
  { clear Hf. induction variations as [|[v st] table IH]; [reflexivity|].
    inversion Hv as [|? ? [Hne Hc] Hv']; subst. simpl.
    rewrite (blank_contains v query Hne Hc Hb). now apply IH. }
  rewrite Ev.
  assert (Ef : fold_left remove_filler filler_words query = query).
  { clear Hv Ev. induction filler_words as [|f fillers IH]; [reflexivity|].
    inversion Hf as [|? ? [Hne Hc] Hf']; subst. simpl.
    unfold remove_filler at 2, replace. destruct f as [|f0 f]; [congruence|].
    rewrite replace_from_absent
      by (apply blank_contains; assumption).
    now apply IH. }
  rewrite Ef. exact Hs.
Qed.

End Normal.

(** ** The channel and the message, [bot.py] *)

Section Channels.

Import PyStr.

Lemma startswith_prefix (p x s : string) :
  startswith (p ++ x) s = true -> startswith p s = true.
Proof.
  revert s. induction p as [|c p IH]; intros s; [reflexivity|].
  destruct s as [|d s]; simpl; [discriminate|].
  intros H. apply andb_prop in H as [H1 H2].
  rewrite H1, (IH s H2). reflexivity.
Qed.

Lemma contains_prefix (p x s : string) :
  contains p s = false -> contains (p ++ x) s = false.
Proof.
  induction s as [|c s IH]; cbn [contains]; intros H;
    apply orb_false_iff in H as [Hs Hc].
  - rewrite orb_false_r.
    destruct (startswith (p ++ x) "") eqn:E; [|reflexivity].
    apply startswith_prefix in E. congruence.
  - rewrite (IH Hc), orb_false_r.
    destruct (startswith (p ++ x) (String c s)) eqn:E; [|reflexivity].
    apply startswith_prefix in E. congruence.
Qed.

(** X14. [is_ticket_channel] depends on the lower-case name only through
    the four words "ticket", "support", "help" and "issue": the patterns
    with "-" and "_" add nothing. *)
Theorem is_ticket_channel_words (name : string) :
  is_ticket_channel name
  = any_in ["ticket"; "support"; "help"; "issue"] (lower name).
Proof.
  unfold is_ticket_channel, any_in, ticket_patterns. cbn [existsb].
  set (n := lower name).
  destruct (contains "ticket" n) eqn:T; [reflexivity|].
  assert (T1 : contains "ticket-" n = false)
    by exact (contains_prefix "ticket" "-" n T).
  assert (T2 : contains "ticket_" n = false)
    by exact (contains_prefix "ticket" "_" n T).
  rewrite T1, T2.
  destruct (contains "support" n) eqn:S.
  { rewrite !orb_true_r. reflexivity. }
  assert (S1 : contains "support-" n = false)
    by exact (contains_prefix "support" "-" n S).
  assert (S2 : contains "support_" n = false)
    by exact (contains_prefix "support" "_" n S).
  rewrite S1, S2.
  destruct (contains "help" n) eqn:H.
  { rewrite !orb_true_r. reflexivity. }
  assert (H1 : contains "help-" n = false)
    by exact (contains_prefix "help" "-" n H).
  assert (H2 : contains "help_" n = false)
    by exact (contains_prefix "help" "_" n H).
  rewrite H1, H2.
  destruct (contains "issue" n) eqn:I.
  { rewrite !orb_true_r. reflexivity. }
  assert (I1 : contains "issue-" n = false)
    by exact (contains_prefix "issue" "-" n I).
  assert (I2 : contains "issue_" n = false)
    by exact (contains_prefix "issue" "_" n I).
  rewrite I1, I2. reflexivity.
Qed.

Lemma startswith_app_r (p s v : string) :
  startswith p s = true -> startswith p (s ++ v) = true.
Proof.
  revert s. induction p as [|c p IH]; intros s; [reflexivity|].
  destruct s as [|d s]; simpl; [discriminate|].
  intros H. apply andb_prop in H as [H1 H2].
  rewrite H1, (IH s H2). reflexivity.
Qed.

Lemma contains_app_r (p s v : string) :
  contains p s = true -> contains p (s ++ v) = true.
Proof.
  induction s as [|c s IH]; cbn [contains]; intros H.
  - rewrite orb_false_r in H. destruct p; [|discriminate].
    destruct v; reflexivity.
  - apply orb_prop in H as [H|H].
    + change (String c s ++ v) with (String c (s ++ v)). cbn [contains].
      change (String c (s ++ v)) with (String c s ++ v).
      rewrite (startswith_app_r _ _ v H). reflexivity.
    + change (String c s ++ v) with (String c (s ++ v)). cbn [contains].
      rewrite (IH H). apply orb_true_r.
Qed.

Lemma contains_app_before (p u s : string) :
  contains p s = true -> contains p (u ++ s) = true.
Proof.
  intros H. induction u as [|c u IH]; [exact H|].
  change (String c u ++ s) with (String c (u ++ s)). cbn [contains].
  rewrite IH. apply orb_true_r.
Qed.

Lemma any_in_extends (patterns : list string) (before s after : string) :
  any_in patterns s = true ->
  any_in patterns (before ++ s ++ after) = true.
Proof.
  unfold any_in. rewrite !existsb_exists. intros (p & Hin & Hc).
  exists p. split; [exact Hin|].
  apply contains_app_before, contains_app_r, Hc.
Qed.

(** X15. More text around a message never silences the bot: when
    [should_respond] holds for a message, it holds for the message with
    any text before and after it. *)
Theorem should_respond_extends
        (mentioned : bool) (content before after : string) :
  should_respond mentioned content = true ->
  should_respond mentioned (before ++ content ++ after) = true.
Proof.
  unfold should_respond. destruct mentioned; [reflexivity|].
  rewrite !lower_app. apply any_in_extends.
Qed.

End Channels.

(** ** The index on disk *)

Section Disk.

Variable encode : string -> vec.


(** X17. An index from disk alone does not make the bot answer: after
    [load_index] on an object without questions, [find_best_answer]
    still returns the no-information answer with confidence 0. *)
Theorem load_index_without_corpus
        (file_path : string) (disk : index_files) (kb : KnowledgeBase)
        (query : string) (t : Q) :
  questions kb = [] ->
  let kb' := snd (load_index file_path disk kb) in
  find_best_answer encode query t kb'
  = (Return ("I don't have information about that topic. Please contact a server admin.",
             0), kb').
Proof.
  intros H. simpl. apply find_best_answer_fallback. right.
  unfold load_index. destruct (read_index file_path disk); simpl; exact H.
Qed.

End Disk.

(** ** Files whose sections hold one marker *)

(** X18. On a training file in which no section holds "A:" more than
    once, [load_training_data] reads exactly the pairs of the format:
    the text before the marker and all the text after it. *)
Theorem parse_qa_pairs_one_marker (content : string) :
  Forall (fun section => (length (PyStr.split "A:" section) <= 2)%nat)
         (tl (PyStr.split "Q:" content)) ->
  parse_qa_pairs content = parse_qa_pairs_spec content.
Proof.
  unfold parse_qa_pairs, parse_qa_pairs_spec.
  induction 1 as [|section rest Hs _ IH]; [reflexivity|].
  simpl. rewrite (parse_section_one_marker section Hs), IH. reflexivity.
Qed.

(** ** The further properties at concrete objects *)




(** The stale object of the index claim is reachable. *)
Lemma reachable_coherent_witness :
  reachable toy_encode stale_kb
  /\ length (questions stale_kb) = length (answers stale_kb)
  /\ question_embeddings stale_kb = index stale_kb
  /\ index stale_kb <> Some [].
Proof.
  assert (H : reachable toy_encode stale_kb)
    by (exists stale_calls; vm_compute; reflexivity).
  split; [exact H|]. exact (reachable_coherent toy_encode stale_kb H).
Defined.

Lemma ready_kb_in_sync : in_sync toy_encode ready_kb.
Proof. split; vm_compute; reflexivity. Qed.

(** The query "abc" on [ready_kb]. *)
Lemma find_best_answer_nearest_question_witness :
  in_sync toy_encode ready_kb
  /\ exists i question answer,
      nth_error (questions ready_kb) i = Some question
      /\ nth_error (answers ready_kb) i = Some answer
      /\ (forall q',
             In q' (questions ready_kb) ->
             l2sqr (toy_encode (preprocess_query "abc")) (toy_encode question)
             <= l2sqr (toy_encode (preprocess_query "abc")) (toy_encode q'))
      /\ (adjusted_threshold (7 # 10)
          <= similarity_of
               (l2sqr (toy_encode (preprocess_query "abc"))
                      (toy_encode question)) ->
          find_best_answer toy_encode "abc" (7 # 10) ready_kb
          = (Return (answer,
                     similarity_of
                       (l2sqr (toy_encode (preprocess_query "abc"))
                              (toy_encode question))), ready_kb))
      /\ (similarity_of
            (l2sqr (toy_encode (preprocess_query "abc"))
                   (toy_encode question))
          < adjusted_threshold (7 # 10) ->
          find_best_answer toy_encode "abc" (7 # 10) ready_kb
          = (Return (NO_GOOD_ANSWER,
                     similarity_of
                       (l2sqr (toy_encode (preprocess_query "abc"))
                              (toy_encode question))), ready_kb)).
Proof.
  split; [exact ready_kb_in_sync|].
  apply (find_best_answer_nearest_question toy_encode ready_kb "abc" (7 # 10)).
  - exact ready_kb_in_sync.
  - reflexivity.
  - discriminate.
Defined.

(** The query "AB" on [ready_kb]: the stored question "ab". *)
Lemma find_best_answer_exact_match_witness :
  In "ab" (questions ready_kb)
  /\ toy_encode "ab" = toy_encode (preprocess_query "AB")
  /\ exists i stored answer confidence,
      nth_error (questions ready_kb) i = Some stored
      /\ nth_error (answers ready_kb) i = Some answer
      /\ l2sqr (toy_encode (preprocess_query "AB")) (toy_encode stored) == 0
      /\ confidence == 1
      /\ find_best_answer toy_encode "AB" (7 # 10) ready_kb
         = (Return (answer, confidence), ready_kb).
Proof.
  assert (Hin : In "ab" (questions ready_kb)) by (left; reflexivity).
  assert (He : toy_encode "ab" = toy_encode (preprocess_query "AB"))
    by (vm_compute; reflexivity).
  split; [exact Hin|]. split; [exact He|].
  apply (find_best_answer_exact_match toy_encode ready_kb "AB" "ab" (7 # 10)).
  - exact ready_kb_in_sync.
  - reflexivity.
  - exact Hin.
  - exact He.
  - vm_compute; discriminate.
Defined.


(** The answer "B." passes at 7/10 and so at 3/10. *)
Lemma threshold_monotone_witness :
  3 # 10 <= 7 # 10
  /\ find_best_answer toy_encode "ab" (3 # 10) ready_kb
     = (Return ("B.", 1), ready_kb).
Proof.
  assert (H : 3 # 10 <= 7 # 10) by (vm_compute; discriminate).
  split; [exact H|].
  apply (proj1 (threshold_monotone toy_encode ready_kb "ab" _ _ H) "B." 1).
  - vm_compute; reflexivity.
  - vm_compute; discriminate.
Defined.

Lemma find_best_answer_ignores_case_witness :
  PyStr.lower "What TimeZone?" = PyStr.lower "what timezone?"
  /\ preprocess_query "What TimeZone?" = preprocess_query "what timezone?"
  /\ find_best_answer toy_encode "What TimeZone?" (7 # 10) ready_kb
     = find_best_answer toy_encode "what timezone?" (7 # 10) ready_kb.
Proof.
  assert (H : PyStr.lower "What TimeZone?" = PyStr.lower "what timezone?")
    by (vm_compute; reflexivity).
  split; [exact H|].
  exact (find_best_answer_ignores_case toy_encode ready_kb _ _ (7 # 10) H).
Defined.

Lemma preprocess_query_blank_witness :
  PyStr.strip ("  " ++ PyStr.nl) = "" /\ preprocess_query ("  " ++ PyStr.nl) = "".
Proof.
  assert (H : PyStr.strip ("  " ++ PyStr.nl) = "") by (vm_compute; reflexivity).
  split; [exact H|]. exact (preprocess_query_blank _ H).
Defined.

Lemma should_respond_extends_witness :
  should_respond false "why" = true
  /\ should_respond false ("tell me " ++ "why" ++ " it fails") = true.
Proof.
  assert (H : should_respond false "why" = true) by (vm_compute; reflexivity).
  split; [exact H|].
  exact (should_respond_extends false "why" "tell me " " it fails" H).
Defined.

(** An index from disk on a fresh object. *)
Lemma load_index_without_corpus_witness :
  questions init = []
  /\ find_best_answer toy_encode "ab" (7 # 10)
       (snd (load_index "vectors.faiss"
                        [("vectors.faiss", [toy_encode "ab"])] init))
     = (Return ("I don't have information about that topic. Please contact a server admin.",
                0),
        snd (load_index "vectors.faiss"
                        [("vectors.faiss", [toy_encode "ab"])] init)).
Proof.
  split; [reflexivity|].
  exact (load_index_without_corpus toy_encode "vectors.faiss"
           [("vectors.faiss", [toy_encode "ab"])] init "ab" (7 # 10) eq_refl).
Defined.

Lemma parse_qa_pairs_one_marker_witness :
  Forall (fun section => (length (PyStr.split "A:" section) <= 2)%nat)
         (tl (PyStr.split "Q:" corpus_two))
  /\ parse_qa_pairs corpus_two = parse_qa_pairs_spec corpus_two.
Proof.
  assert (H : Forall (fun section =>
                        (length (PyStr.split "A:" section) <= 2)%nat)
                     (tl (PyStr.split "Q:" corpus_two))).
  { vm_compute. repeat constructor. }
  split; [exact H|]. exact (parse_qa_pairs_one_marker corpus_two H).
Defined.
